(** * feature.js: a shallow embedding of the detection library

    The development follows [src/feature.js]: the [util] helpers ([old],
    [pfx], [create]), the [Feature] catalog of probes and the aggregator
    [testAll].  JavaScript values, exceptions and the host objects the
    probes inspect are modelled explicitly; the closure variables of the
    module ([util.old], the [style] object and the [memory] table of
    [pfx]) and [docEl.className] form the mutable state. *)

From Stdlib Require Import ZArith Ascii String List Bool Lia.
From stdpp Require Import base option gmap strings list.

Local Open Scope string_scope.
Local Open Scope list_scope.

(** ** JavaScript values *)

(** Host objects and functions are opaque references; everything the code
    can observe about them is provided by the environment record below. *)
Definition ref := nat.

Inductive value : Type :=
| VUndef
| VNull
| VBool (b : bool)
| VNum (z : Z)
| VStr (s : string)
| VObj (r : ref).

#[global] Instance value_eq_dec : EqDecision value.
Proof. solve_decision. Defined.

(** [ToBoolean] *)
Definition truthy (v : value) : bool :=
  match v with
  | VUndef | VNull => false
  | VBool b => b
  | VNum z => negb (Z.eqb z 0)
  | VStr s => negb (String.eqb s "")
  | VObj _ => true
  end.

(** [a === b] and [a !== b] *)
Definition strict_eq (a b : value) : bool := bool_decide (a = b).
Definition strict_neq (a b : value) : bool := negb (strict_eq a b).

(** [typeof v === "undefined"] *)
Definition typeof_undefined (v : value) : bool := strict_eq v VUndef.

Inductive exn : Type :=
| TypeError
| ReferenceError
| HostError (code : nat).

Inductive outcome (A : Type) : Type :=
| Ok (a : A)
| Throw (x : exn).
Arguments Ok {A} a.
Arguments Throw {A} x.

(** ** Strings

    Strings are sequences of code units below 256, that is Basic Latin
    and Latin-1; case mapping is the Unicode one on these code units. *)
Module Str.

(** The letters [a]-[z], and U+00E0 to U+00FE without the division sign
    U+00F7: the code units whose upper-case form is the code unit 32
    below. *)
Definition is_lower (c : ascii) : bool :=
  let n := nat_of_ascii c in
  ((97 <=? n)%nat && (n <=? 122)%nat)
  || ((224 <=? n)%nat && (n <=? 254)%nat && negb (Nat.eqb n 247)).

(** The letters [A]-[Z], and U+00C0 to U+00DE without the multiplication
    sign U+00D7: the code units whose lower-case form is the code unit 32
    above. *)
Definition is_upper (c : ascii) : bool :=
  let n := nat_of_ascii c in
  ((65 <=? n)%nat && (n <=? 90)%nat)
  || ((192 <=? n)%nat && (n <=? 222)%nat && negb (Nat.eqb n 215)).

(** The upper-case code unit.  Three code units below 256 have an
    upper-case form that is no single code unit below 256 and are kept:
    the sharp s U+00DF (its form is [SS]), the micro sign U+00B5 (U+039C)
    and U+00FF (U+0178). *)
Definition upper_char (c : ascii) : ascii :=
  if is_lower c then ascii_of_nat (nat_of_ascii c - 32) else c.

(** The lower-case code unit. *)
Definition lower_char (c : ascii) : ascii :=
  if is_upper c then ascii_of_nat (nat_of_ascii c + 32) else c.

(** [s.toUpperCase()]: the sharp s becomes [SS]; the micro sign and
    U+00FF, whose upper-case forms are not code units below 256, are
    kept. *)
Fixpoint toUpperCase (s : string) : string :=
  match s with
  | EmptyString => EmptyString
  | String c r =>
      if Nat.eqb (nat_of_ascii c) 223
      then String "S" (String "S" (toUpperCase r))
      else String (upper_char c) (toUpperCase r)
  end.

(** [s.toLowerCase()] *)
Fixpoint toLowerCase (s : string) : string :=
  match s with
  | EmptyString => EmptyString
  | String c r => String (lower_char c) (toLowerCase r)
  end.

(** [s.charAt(0)] *)
Definition charAt0 (s : string) : string :=
  match s with
  | EmptyString => EmptyString
  | String c _ => String c EmptyString
  end.

(** [s.substr(1)] *)
Definition substr1 (s : string) : string :=
  match s with
  | EmptyString => EmptyString
  | String _ r => r
  end.

(** [l.join(sep)] *)
Fixpoint join (sep : string) (l : list string) : string :=
  match l with
  | [] => EmptyString
  | [x] => x
  | x :: r => x +:+ sep +:+ join sep r
  end.

(** [s.split(sep)] for a one-character separator *)
Fixpoint split (sep : ascii) (s : string) : list string :=
  match s with
  | EmptyString => [EmptyString]
  | String c r =>
      if Ascii.eqb c sep then EmptyString :: split sep r
      else match split sep r with
           | [] => [String c EmptyString]
           | h :: t => String c h :: t
           end
  end.

Fixpoint has_char (c : ascii) (s : string) : bool :=
  match s with
  | EmptyString => false
  | String d r => Ascii.eqb d c || has_char c r
  end.

(** Decimal rendering of an integer, for [String(n)]. *)
Fixpoint digits (fuel : nat) (n : N) (acc : string) : string :=
  match fuel with
  | O => acc
  | S f =>
      let d := ascii_of_N (48 + N.modulo n 10) in
      let q := N.div n 10 in
      if N.eqb q 0 then String d acc else digits f q (String d acc)
  end.

Definition of_Z (z : Z) : string :=
  let n := Z.to_N (Z.abs z) in
  let body := digits (S (N.to_nat (N.log2 n))) n EmptyString in
  if Z.ltb z 0 then String "-" body else body.

End Str.

(** ** Regular expressions

    The fragment used by [util.old]: literals, [\s], [.], concatenation
    and alternation, matched with the [i] flag. *)
Module Regex.

Inductive re : Type :=
| Eps
| Lit (c : ascii)
| Space
| Dot
| Cat (a b : re)
| Alt (a b : re).

(** [\s] on code units below 256 *)
Definition is_space (c : ascii) : bool :=
  let n := nat_of_ascii c in
  ((9 <=? n)%nat && (n <=? 13)%nat) || Nat.eqb n 32 || Nat.eqb n 160.

(** [.] excludes the line terminators *)
Definition is_line_terminator (c : ascii) : bool :=
  let n := nat_of_ascii c in Nat.eqb n 10 || Nat.eqb n 13.

(** Comparison under the [i] flag: both code units are canonicalized,
    that is replaced by their upper-case form when it is a single code
    unit. *)
Definition ci_eqb (a b : ascii) : bool :=
  Ascii.eqb (Str.upper_char a) (Str.upper_char b).

(** All the ways [r] can match a prefix of [s]: the list of remainders,
    in backtracking order. *)
Fixpoint step (r : re) (s : string) : list string :=
  match r with
  | Eps => [s]
  | Lit c =>
      match s with
      | String d rest => if ci_eqb c d then [rest] else []
      | EmptyString => []
      end
  | Space =>
      match s with
      | String d rest => if is_space d then [rest] else []
      | EmptyString => []
      end
  | Dot =>
      match s with
      | String d rest => if is_line_terminator d then [] else [rest]
      | EmptyString => []
      end
  | Cat a b => flat_map (step b) (step a s)
  | Alt a b => step a s ++ step b s
  end.

Definition matches_here (r : re) (s : string) : bool :=
  match step r s with
  | [] => false
  | _ :: _ => true
  end.

(** [r.test(s)]: an unanchored search *)
Fixpoint test (r : re) (s : string) : bool :=
  matches_here r s ||
  match s with
  | EmptyString => false
  | String _ rest => test r rest
  end.

(** A literal word of the pattern *)
Fixpoint lit (s : string) : re :=
  match s with
  | EmptyString => Eps
  | String c r => Cat (Lit c) (lit r)
  end.

End Regex.

(** ** The host environment

    [window], [document], [document.documentElement], [navigator] and
    [Object.prototype] are fixed host objects.  Everything else the code
    observes of the host is a field of [env]; an environment may differ
    from one call to the next. *)
Definition window : ref := 0%nat.
Definition document : ref := 1%nat.
Definition docEl : ref := 2%nat.
Definition navigator : ref := 3%nat.
Definition ObjectPrototype : ref := 4%nat.

Record env : Type := {
  (** [navigator.userAgent] *)
  userAgent : string;
  (** [o[k]], [undefined] when the property is missing *)
  prop : ref -> string -> value;
  (** [k in o] *)
  has : ref -> string -> bool;
  (** [typeof f === "function"] *)
  callable : ref -> bool;
  (** [f.call(this, ...args)] for a callable [f] *)
  invoke : ref -> value -> list value -> outcome value;
  (** [new f(...args)] *)
  construct : ref -> list value -> outcome ref;
  (** [o instanceof f] for a callable [f] *)
  instance_of : value -> ref -> bool;
  (** [document.createElement(tag)]: the detached element it yields *)
  createElement : string -> ref;
  (** [el.style[k]]; [None] when [el.style] is [undefined] or [null], so
      that indexing it throws *)
  style_prop : ref -> option (string -> value);
  (** [el.style.width = w] followed by reading [el.style.width] *)
  style_width_after : ref -> string -> outcome value;
  (** evaluating the global identifier [localStorage] *)
  global_localStorage : outcome value;
  (** [String(o)] for an object *)
  obj_to_string : ref -> outcome string;
  (** the enumerable properties an array inherits from its prototypes,
      name and value, in the order [for ... in] visits them after the
      indices *)
  array_inherited : list (string * value)
}.

(** ** Module state *)

Record state : Type := {
  (** [util.old] *)
  old : bool;
  (** the [style] object captured by the closure of [util.pfx]; [None]
      when it is [undefined] or [null] *)
  style : option (string -> value);
  (** the [memory] table of [util.pfx]: its own properties *)
  memory : gmap string value;
  (** instrumentation: the names looked up on [style], latest first *)
  style_reads : list string;
  (** [docEl.className] *)
  className : string
}.

Definition set_memory (m : gmap string value) (st : state) : state :=
  {| old := old st; style := style st; memory := m;
     style_reads := style_reads st; className := className st |}.

Definition log_read (k : string) (st : state) : state :=
  {| old := old st; style := style st; memory := memory st;
     style_reads := k :: style_reads st; className := className st |}.

Definition set_className (c : string) (st : state) : state :=
  {| old := old st; style := style st; memory := memory st;
     style_reads := style_reads st; className := c |}.

(** ** Computations: state and exceptions *)

Definition M (A : Type) : Type := state -> outcome A * state.

#[global] Instance M_ret : MRet M := fun A a st => (Ok a, st).

#[global] Instance M_bind : MBind M := fun A B f m st =>
  match m st with
  | (Ok a, st') => f a st'
  | (Throw x, st') => (Throw x, st')
  end.

Definition throw {A : Type} (x : exn) : M A := fun st => (Throw x, st).

Definition lift {A : Type} (o : outcome A) : M A := fun st => (o, st).

(** [try { body } catch (err) { handler }] *)
Definition try_catch {A : Type} (body : M A) (handler : exn -> M A) : M A :=
  fun st =>
    match body st with
    | (Ok a, st') => (Ok a, st')
    | (Throw x, st') => handler x st'
    end.

Definition get_state : M state := fun st => (Ok st, st).
Definition modify (f : state -> state) : M unit := fun st => (Ok tt, f st).

(** ** Operators of the language *)
Section Operators.
Variable e : env.

(** [a && b] *)
Definition js_and (a b : M value) : M value :=
  v ← a; if truthy v then b else mret v.

(** [a || b] *)
Definition js_or (a b : M value) : M value :=
  v ← a; if truthy v then mret v else b.

(** [!!a] *)
Definition js_bool (a : M value) : M value :=
  v ← a; mret (VBool (truthy v)).

(** [k in o] *)
Definition js_in (k : string) (o : value) : M value :=
  match o with
  | VObj r => mret (VBool (has e r k))
  | _ => throw TypeError
  end.

(** [o.k]; primitives are taken to have no property of the names read *)
Definition js_get (o : value) (k : string) : M value :=
  match o with
  | VObj r => mret (prop e r k)
  | VUndef | VNull => throw TypeError
  | _ => mret VUndef
  end.

(** [f(...args)] with receiver [this] *)
Definition js_call (f : value) (this : value) (args : list value) : M value :=
  match f with
  | VObj r => if callable e r then lift (invoke e r this args) else throw TypeError
  | _ => throw TypeError
  end.

(** [o.k(...args)] *)
Definition js_call_method (o : value) (k : string) (args : list value) : M value :=
  f ← js_get o k; js_call f o args.

(** [new f(...args)] *)
Definition js_new (f : value) (args : list value) : M value :=
  match f with
  | VObj r =>
      match construct e r args with
      | Ok o => mret (VObj o)
      | Throw x => throw x
      end
  | _ => throw TypeError
  end.

(** [o instanceof f] *)
Definition js_instanceof (o : value) (f : value) : M value :=
  match f with
  | VObj r => if callable e r then mret (VBool (instance_of e o r)) else throw TypeError
  | _ => throw TypeError
  end.

(** [String(v)], as used by [+] with a string operand *)
Definition js_to_string (v : value) : M string :=
  match v with
  | VUndef => mret "undefined"
  | VNull => mret "null"
  | VBool true => mret "true"
  | VBool false => mret "false"
  | VNum z => mret (Str.of_Z z)
  | VStr s => mret s
  | VObj r => lift (obj_to_string e r)
  end.

End Operators.

(** ** [util] *)
Module Util.

(** [/(Android\s(1.|2.))|(Silk\/1.)/i] *)
Definition old_pattern : Regex.re :=
  Regex.Alt
    (Regex.Cat (Regex.lit "Android")
       (Regex.Cat Regex.Space
          (Regex.Alt (Regex.Cat (Regex.lit "1") Regex.Dot)
                     (Regex.Cat (Regex.lit "2") Regex.Dot))))
    (Regex.Cat (Regex.lit "Silk/1") Regex.Dot).

(** The initialiser of [util.old] *)
Definition old_init (e : env) : bool := Regex.test old_pattern (userAgent e).

(** [util.create] *)
Definition create (e : env) (el : string) : ref := createElement e el.

Definition prefixes : list string := ["Webkit"; "Moz"; "O"; "ms"].

(** The local [props] of [pfx] *)
Definition props (prop : string) : list string :=
  let ucProp := Str.toUpperCase (Str.charAt0 prop) +:+ Str.substr1 prop in
  Str.split " " (prop +:+ " " +:+ Str.join (ucProp +:+ " ") prefixes +:+ ucProp).

Section Pfx.
Variable e : env.

(** [memory[prop]]: own property, else inherited from [Object.prototype] *)
Definition memory_get (prop0 : string) : M value := fun st =>
  (Ok (default (prop e ObjectPrototype prop0) (memory st !! prop0)), st).

(** [memory[prop] = v] *)
Definition memory_put (prop0 : string) (v : value) : M unit :=
  modify (fun st => set_memory (<[prop0 := v]> (memory st)) st).

(** [style[item]]: the base must be an object, then the item becomes a
    property name, then the property is read *)
Definition style_get (item : value) : M value := fun st =>
  match style st with
  | None => (Throw TypeError, st)
  | Some sty =>
      match js_to_string e item st with
      | (Ok k, st') => (Ok (sty k), log_read k st')
      | (Throw x, st') => (Throw x, st')
      end
  end.

(** The values [props[i]] that [for (var i in props)] visits: the
    elements, then the enumerable properties the array inherits *)
Definition for_in_items (props0 : list string) : list value :=
  map VStr props0 ++ map snd (array_inherited e).

(** The [for (var i in props)] loop *)
Fixpoint scan (prop0 : string) (items : list value) : M unit :=
  match items with
  | [] => mret tt
  | item :: rest =>
      v ← style_get item;
      if strict_neq v VUndef then memory_put prop0 item
      else scan prop0 rest
  end.

Definition pfx (prop0 : string) : M value :=
  m ← memory_get prop0;
  (if typeof_undefined m
   then memory_put prop0 VNull ;; scan prop0 (for_in_items (props prop0))
   else mret tt) ;;
  memory_get prop0.

End Pfx.

End Util.

(** Module initialisation: [util.old] and the closure of [util.pfx]. *)
Definition init (e : env) (cls : string) : state :=
  {| old := Util.old_init e;
     style := style_prop e (createElement e "dummy");
     memory := ∅;
     style_reads := [];
     className := cls |}.

(** ** [Feature] *)
Module Feature.

Definition probe : Type := env -> M value.

Section Probes.
Variable e : env.

Definition css3Dtransform : M value :=
  st ← get_state;
  test ← js_and (mret (VBool (negb (old st))))
                (r ← Util.pfx e "perspective"; mret (VBool (strict_neq r VNull)));
  js_bool (mret test).

Definition cssTransform : M value :=
  st ← get_state;
  test ← js_and (mret (VBool (negb (old st))))
                (r ← Util.pfx e "transformOrigin"; mret (VBool (strict_neq r VNull)));
  js_bool (mret test).

Definition cssTransition : M value :=
  test ← (r ← Util.pfx e "transition"; mret (VBool (strict_neq r VNull)));
  js_bool (mret test).

Definition addEventListener : M value :=
  js_bool (js_get e (VObj window) "addEventListener").

Definition querySelectorAll : M value :=
  js_get e (VObj document) "querySelectorAll".

Definition matchMedia : M value :=
  js_get e (VObj window) "matchMedia".

Definition deviceMotion : M value :=
  js_in e "DeviceMotionEvent" (VObj window).

Definition deviceOrientation : M value :=
  js_in e "DeviceOrientationEvent" (VObj window).

Definition contextMenu : M value :=
  js_and (js_in e "contextMenu" (VObj docEl))
         (js_in e "HTMLMenuItemElement" (VObj window)).

Definition classList : M value :=
  js_in e "classList" (VObj docEl).

Definition placeholder : M value :=
  js_in e "placeholder" (VObj (Util.create e "input")).

Definition localStorage : M value :=
  try_catch
    (js_and (ls ← lift (global_localStorage e); js_in e "setItem" ls)
            (ls ← lift (global_localStorage e); js_in e "removeItem" ls))
    (fun err => mret (VBool false)).

Definition historyAPI : M value :=
  js_and (js_get e (VObj window) "history")
         (h ← js_get e (VObj window) "history"; js_in e "pushState" h).

Definition serviceWorker : M value :=
  js_in e "serviceWorker" (VObj navigator).

Definition viewportUnit : M value :=
  let el := Util.create e "dummy" in
  try_catch
    (w ← lift (style_width_after e el "1vw");
     let test := VBool (strict_neq w (VStr "")) in
     js_bool (mret test))
    (fun err => mret (VBool false)).

Definition remUnit : M value :=
  let el := Util.create e "dummy" in
  try_catch
    (w ← lift (style_width_after e el "1rem");
     let test := VBool (strict_neq w (VStr "")) in
     js_bool (mret test))
    (fun err => mret (VBool false)).

Definition canvas : M value :=
  let el := Util.create e "dummy" in
  js_bool (js_and (js_get e (VObj el) "getContext")
                  (js_call_method e (VObj el) "getContext" [VStr "2d"])).

Definition svg : M value :=
  js_and (js_bool (js_get e (VObj document) "createElementNS"))
         (js_bool (n ← js_call_method e (VObj document) "createElementNS"
                        [VStr "http://www.w3.org/2000/svg"; VStr "svg"];
                   js_get e n "createSVGRect")).

Definition webGL : M value :=
  let el := Util.create e "dummy" in
  try_catch
    (js_bool (js_and (js_get e (VObj window) "WebGLRenderingContext")
                     (js_or (js_call_method e (VObj el) "getContext" [VStr "webgl"])
                            (js_call_method e (VObj el) "getContext"
                               [VStr "experimental-webgl"]))))
    (fun err => mret (VBool false)).

Definition cors : M value :=
  js_and (js_in e "XMLHttpRequest" (VObj window))
         (x ← (c ← js_get e (VObj window) "XMLHttpRequest"; js_new e c []);
          js_in e "withCredentials" x).

Definition touch : M value :=
  js_bool
    (js_or
       (js_or (js_in e "ontouchstart" (VObj window))
              (js_and
                 (js_and (js_get e (VObj window) "navigator")
                         (n ← js_get e (VObj window) "navigator";
                          js_get e n "msPointerEnabled"))
                 (js_get e (VObj window) "MSGesture")))
       (js_and (js_get e (VObj window) "DocumentTouch")
               (d ← js_get e (VObj window) "DocumentTouch";
                js_instanceof e (VObj document) d))).

Definition async : M value :=
  js_in e "async" (VObj (Util.create e "script")).

Definition defer : M value :=
  js_in e "defer" (VObj (Util.create e "script")).

Definition geolocation : M value :=
  js_in e "geolocation" (VObj navigator).

Definition srcset : M value :=
  js_in e "srcset" (VObj (Util.create e "img")).

Definition sizes : M value :=
  js_in e "sizes" (VObj (Util.create e "img")).

Definition pictureElement : M value :=
  js_in e "HTMLPictureElement" (VObj window).

End Probes.

(** The probes of the [Feature] object, in declaration order. *)
Definition catalog : list (string * probe) :=
  [ ("css3Dtransform", css3Dtransform);
    ("cssTransform", cssTransform);
    ("cssTransition", cssTransition);
    ("addEventListener", addEventListener);
    ("querySelectorAll", querySelectorAll);
    ("matchMedia", matchMedia);
    ("deviceMotion", deviceMotion);
    ("deviceOrientation", deviceOrientation);
    ("contextMenu", contextMenu);
    ("classList", classList);
    ("placeholder", placeholder);
    ("localStorage", localStorage);
    ("historyAPI", historyAPI);
    ("serviceWorker", serviceWorker);
    ("viewportUnit", viewportUnit);
    ("remUnit", remUnit);
    ("canvas", canvas);
    ("svg", svg);
    ("webGL", webGL);
    ("cors", cors);
    ("touch", touch);
    ("async", async);
    ("defer", defer);
    ("geolocation", geolocation);
    ("srcset", srcset);
    ("sizes", sizes);
    ("pictureElement", pictureElement) ].

(** The receiver of a call: [undefined] for a detached call in strict
    mode, otherwise an object given by its enumerable properties in
    enumeration order. *)
Inductive this_value : Type :=
| ThisUndefined
| ThisObject (members : list (string * value)).

(** The keys visited by [for (var test in this)] *)
Definition for_in_keys (this : this_value) : list string :=
  match this with
  | ThisUndefined => []
  | ThisObject members => map fst members
  end.

(** [this[test]] for an enumerated key *)
Definition this_get (this : this_value) (k : string) : value :=
  match this with
  | ThisUndefined => VUndef
  | ThisObject members =>
      default VUndef (snd <$> List.find (fun kv => String.eqb (fst kv) k) members)
  end.

(** Function objects of the methods of [Feature] *)
Definition method_ref (i : nat) : ref := (100 + i)%nat.

(** The [Feature] object as a receiver: every member is a function. *)
Definition Feature_object : this_value :=
  ThisObject
    (imap (fun i nf => (fst nf, VObj (method_ref i))) catalog
     ++ [("testAll", VObj (method_ref (length catalog)))]).

Section Aggregator.
Variable e : env.
Variable this : this_value.

(** The body of the [for ... in] loop, threading [classes] *)
Fixpoint testAll_loop (keys : list string) (classes : string) : M string :=
  match keys with
  | [] => mret classes
  | test :: rest =>
      if negb (String.eqb test "testAll") && negb (String.eqb test "constructor")
         && truthy (this_get this test)
      then
        r ← js_call e (VStr test) VUndef [];
        s ← js_to_string e r;
        testAll_loop rest (classes +:+ " " +:+ s)
      else testAll_loop rest classes
  end.

Definition testAll : M value :=
  classes ← testAll_loop (for_in_keys this) " js";
  modify (fun st => set_className (className st +:+ Str.toLowerCase classes) st) ;;
  mret VUndef.

End Aggregator.

End Feature.

(** ** Runs of the public interface *)

(** The states the module can be in: initialisation, followed by any
    number of probe calls and [testAll] calls, each in an environment of
    its own. *)
Inductive reachable (e0 : env) (cls : string) : state -> Prop :=
| reach_init : reachable e0 cls (init e0 cls)
| reach_probe name f e st :
    (name, f) ∈ Feature.catalog ->
    reachable e0 cls st ->
    reachable e0 cls (snd (f e st))
| reach_testAll this e st :
    reachable e0 cls st ->
    reachable e0 cls (snd (Feature.testAll e this st)).

(** The same environment with another [navigator.userAgent]. *)
Definition with_userAgent (ua : string) (e : env) : env :=
  {| userAgent := ua; prop := prop e; has := has e; callable := callable e;
     invoke := invoke e; construct := construct e; instance_of := instance_of e;
     createElement := createElement e; style_prop := style_prop e;
     style_width_after := style_width_after e;
     global_localStorage := global_localStorage e;
     obj_to_string := obj_to_string e;
     array_inherited := array_inherited e |}.

(** ** Vocabulary of the statements *)

(** A style property name is recognised when reading it does not give
    [undefined]. *)
Definition recognised (sty : string -> value) (k : string) : bool :=
  strict_neq (sty k) VUndef.

(** The first recognised candidate, [null] when there is none. *)
Definition first_recognised (sty : string -> value) (cands : list string) : value :=
  match List.find (recognised sty) cands with
  | Some c => VStr c
  | None => VNull
  end.

(** The names read from [style] by one scan of [cands]. *)
Fixpoint scanned (sty : string -> value) (cands : list string) : list string :=
  match cands with
  | [] => []
  | c :: rest => if recognised sty c then [c] else c :: scanned sty rest
  end.

(** The property name with its first letter in upper case. *)
Definition capitalized (p : string) : string :=
  Str.toUpperCase (Str.charAt0 p) +:+ Str.substr1 p.

(** The candidates in resolution order: the name itself, then the vendor
    prefixes applied to the capitalized name. *)
Definition candidates (p : string) : list string :=
  [p; "Webkit" +:+ capitalized p; "Moz" +:+ capitalized p;
   "O" +:+ capitalized p; "ms" +:+ capitalized p].

(** What every public call preserves: the denylist flag and the captured
    style object. *)
Definition preserved (st st' : state) : Prop :=
  old st' = old st /\ style st' = style st.

(** A computation that leaves the state alone. *)
Definition pure_comp {A : Type} (m : M A) : Prop :=
  forall st, snd (m st) = st.

(** A computation that never throws. *)
Definition total {A : Type} (m : M A) : Prop :=
  forall st, exists a, fst (m st) = Ok a.

(** A call completes normally. *)
Definition completes (m : M value) (st : state) : Prop :=
  exists v st', m st = (Ok v, st').

(** What [el.getContext(kind)] yields on the transient element. *)
Definition getContext_outcome (e : env) (kind : string) : outcome value :=
  let el := Util.create e "dummy" in
  match prop e el "getContext" with
  | VObj r => if callable e r then invoke e r (VObj el) [VStr kind] else Throw TypeError
  | _ => Throw TypeError
  end.

(** The boolean [webGL] computes: the constructor exists and one of the
    two context kinds can be acquired. *)
Definition webGL_result (e : env) : bool :=
  truthy (prop e window "WebGLRenderingContext") &&
  match getContext_outcome e "webgl" with
  | Ok ctx =>
      if truthy ctx then true
      else match getContext_outcome e "experimental-webgl" with
           | Ok ctx' => truthy ctx'
           | Throw _ => false
           end
  | Throw _ => false
  end.

(** The names of the probes whose result is truthy, in catalog order. *)
Definition supported (e : env) (st : state) : list string :=
  map fst
    (List.filter
       (fun nf : string * Feature.probe =>
          match fst (snd nf e st) with
          | Ok v => truthy v
          | Throw _ => false
          end)
       Feature.catalog).

Definition falsy_or_object (v : value) : Prop :=
  match v with
  | VObj _ => True
  | _ => truthy v = false
  end.

Definition falsy_or_callable (e : env) (v : value) : Prop :=
  match v with
  | VObj r => callable e r = true
  | _ => truthy v = false
  end.

(** Class tokens: the non-empty space-separated parts. *)
Definition tokens (s : string) : list string :=
  filter (fun t => t <> "") (Str.split " " s).

Definition count_token (t : string) (s : string) : nat :=
  length (filter (fun u => u = t) (tokens s)).

(** ** Sample environments *)

(** A host that supports nothing. *)
Definition bare_env : env :=
  {| userAgent := "Mozilla/5.0 (X11; Linux x86_64)";
     prop := fun _ _ => VUndef;
     has := fun _ _ => false;
     callable := fun _ => false;
     invoke := fun _ _ _ => Throw TypeError;
     construct := fun _ _ => Throw TypeError;
     instance_of := fun _ _ => false;
     createElement := fun _ => 10%nat;
     style_prop := fun _ => Some (fun _ => VUndef);
     style_width_after := fun _ _ => Ok (VStr "");
     global_localStorage := Throw ReferenceError;
     obj_to_string := fun _ => Ok "[object Object]";
     array_inherited := [] |}.

(** Exactly canvas and svg are supported: the transient element has a
    [getContext] that yields a 2D context, and [createElementNS] yields an
    element with [createSVGRect]. *)
Definition canvas_svg_env : env :=
  {| userAgent := userAgent bare_env;
     prop := fun o k =>
       if Nat.eqb o 10 && String.eqb k "getContext" then VObj 20
       else if Nat.eqb o document && String.eqb k "createElementNS" then VObj 21
       else if Nat.eqb o 23 && String.eqb k "createSVGRect" then VObj 24
       else VUndef;
     has := has bare_env;
     callable := fun f => Nat.eqb f 20 || Nat.eqb f 21 || Nat.eqb f 24;
     invoke := fun f _ args =>
       if Nat.eqb f 20 then
         match args with
         | [VStr "2d"] => Ok (VObj 22)
         | _ => Ok VNull
         end
       else if Nat.eqb f 21 then Ok (VObj 23)
       else Throw TypeError;
     construct := construct bare_env;
     instance_of := instance_of bare_env;
     createElement := createElement bare_env;
     style_prop := style_prop bare_env;
     style_width_after := style_width_after bare_env;
     global_localStorage := global_localStorage bare_env;
     obj_to_string := obj_to_string bare_env;
     array_inherited := array_inherited bare_env |}.

(** [XMLHttpRequest] is present on [window] but cannot be constructed. *)
Definition broken_xhr_env : env :=
  {| userAgent := userAgent bare_env;
     prop := fun o k =>
       if Nat.eqb o window && String.eqb k "XMLHttpRequest" then VObj 30 else VUndef;
     has := fun o k => Nat.eqb o window && String.eqb k "XMLHttpRequest";
     callable := fun f => Nat.eqb f 30;
     invoke := invoke bare_env;
     construct := fun _ _ => Throw (HostError 0);
     instance_of := instance_of bare_env;
     createElement := createElement bare_env;
     style_prop := style_prop bare_env;
     style_width_after := style_width_after bare_env;
     global_localStorage := global_localStorage bare_env;
     obj_to_string := obj_to_string bare_env;
     array_inherited := array_inherited bare_env |}.

(** An old Android stock browser whose engine knows the WebKit-prefixed
    [perspective] and [transition] and the unprefixed [transformOrigin]. *)
Definition old_android_env : env :=
  {| userAgent := "Mozilla/5.0 (Linux; U; Android 2.3.6; en-us) AppleWebKit/533.1";
     prop := prop bare_env;
     has := has bare_env;
     callable := callable bare_env;
     invoke := invoke bare_env;
     construct := construct bare_env;
     instance_of := instance_of bare_env;
     createElement := createElement bare_env;
     style_prop := fun _ => Some (fun k =>
       if String.eqb k "WebkitPerspective" || String.eqb k "WebkitTransition"
          || String.eqb k "transformOrigin" || String.eqb k "WebkitTransformOrigin"
       then VStr "" else VUndef);
     style_width_after := style_width_after bare_env;
     global_localStorage := global_localStorage bare_env;
     obj_to_string := obj_to_string bare_env;
     array_inherited := array_inherited bare_env |}.

(** Every guarded host operation throws: storage access is denied, the
    style setter rejects the unit, and context acquisition fails although
    the WebGL constructor exists. *)
Definition hostile_env : env :=
  {| userAgent := userAgent bare_env;
     prop := fun o k =>
       if Nat.eqb o window && String.eqb k "WebGLRenderingContext" then VObj 50
       else if Nat.eqb o 10 && String.eqb k "getContext" then VObj 51
       else VUndef;
     has := has bare_env;
     callable := fun f => Nat.eqb f 50 || Nat.eqb f 51;
     invoke := fun _ _ _ => Throw (HostError 1);
     construct := construct bare_env;
     instance_of := instance_of bare_env;
     createElement := createElement bare_env;
     style_prop := style_prop bare_env;
     style_width_after := fun _ _ => Throw (HostError 2);
     global_localStorage := Throw (HostError 3);
     obj_to_string := obj_to_string bare_env;
     array_inherited := array_inherited bare_env |}.

(** WebGL is available. *)
Definition webgl_env : env :=
  {| userAgent := userAgent bare_env;
     prop := fun o k =>
       if Nat.eqb o window && String.eqb k "WebGLRenderingContext" then VObj 50
       else if Nat.eqb o 10 && String.eqb k "getContext" then VObj 51
       else VUndef;
     has := has bare_env;
     callable := fun f => Nat.eqb f 50 || Nat.eqb f 51;
     invoke := fun f _ args =>
       match args with
       | [VStr "experimental-webgl"] => Ok (VObj 52)
       | _ => Ok VNull
       end;
     construct := construct bare_env;
     instance_of := instance_of bare_env;
     createElement := createElement bare_env;
     style_prop := style_prop bare_env;
     style_width_after := style_width_after bare_env;
     global_localStorage := global_localStorage bare_env;
     obj_to_string := obj_to_string bare_env;
     array_inherited := array_inherited bare_env |}.

(** ** Further vocabulary *)

(** Removing a literal word from the front of [s], letters compared as
    under the [i] flag. *)
Fixpoint ci_strip (w s : string) : option string :=
  match w with
  | EmptyString => Some s
  | String c w' =>
      match s with
      | String d s' => if Regex.ci_eqb c d then ci_strip w' s' else None
      | EmptyString => None
      end
  end.

(** [s] begins with a signature of the denylist: [Android], a white-space
    character, [1] or [2] and one more character; or [Silk/1] and one more
    character (the extra character is anything but a line terminator). *)
Definition denylisted_here (s : string) : bool :=
  match ci_strip "Android" s with
  | Some (String w (String v (String c _))) =>
      Regex.is_space w && (Ascii.eqb v "1" || Ascii.eqb v "2")
      && negb (Regex.is_line_terminator c)
  | _ => false
  end
  || match ci_strip "Silk/1" s with
     | Some (String c _) => negb (Regex.is_line_terminator c)
     | _ => false
     end.

(** The letters [A]-[Z] replaced by [a]-[z], every other code unit kept:
    two strings with the same image differ only in the case of these
    letters. *)
Definition fold_char (c : ascii) : ascii :=
  let n := nat_of_ascii c in
  if (65 <=? n)%nat && (n <=? 90)%nat then ascii_of_nat (n + 32) else c.

Fixpoint ascii_fold (s : string) : string :=
  match s with
  | EmptyString => EmptyString
  | String c r => String (fold_char c) (ascii_fold r)
  end.

(** A computation whose result does not depend on the state. *)
Definition oblivious {A : Type} (m : M A) : Prop :=
  forall st st', fst (m st) = fst (m st').

(** A computation that, when it returns, returns a strict boolean. *)
Definition boolean_valued (m : M value) : Prop :=
  forall st v st', m st = (Ok v, st') -> exists b, v = VBool b.

(** The loop of [testAll] reaches the call [test()]: some enumerated key
    other than [testAll] and [constructor] has a truthy member. *)
Definition calls_member (this : Feature.this_value) : bool :=
  existsb
    (fun test => negb (String.eqb test "testAll")
                 && negb (String.eqb test "constructor")
                 && truthy (Feature.this_get this test))
    (Feature.for_in_keys this).

(** The names whose prefix the catalog resolves. *)
Definition resolved_names : list string :=
  ["perspective"; "transformOrigin"; "transition"].

(** A desktop browser with the History API. *)
Definition history_env : env :=
  {| userAgent := userAgent bare_env;
     prop := fun o k =>
       if Nat.eqb o window && String.eqb k "history" then VObj 60 else VUndef;
     has := fun o k => Nat.eqb o 60 && String.eqb k "pushState";
     callable := callable bare_env;
     invoke := invoke bare_env;
     construct := construct bare_env;
     instance_of := instance_of bare_env;
     createElement := createElement bare_env;
     style_prop := style_prop bare_env;
     style_width_after := style_width_after bare_env;
     global_localStorage := global_localStorage bare_env;
     obj_to_string := obj_to_string bare_env;
     array_inherited := array_inherited bare_env |}.

(** A recent Android phone with a modern engine. *)
Definition android10_env : env :=
  {| userAgent := "Mozilla/5.0 (Linux; Android 10; Pixel 3) AppleWebKit/537.36";
     prop := prop bare_env;
     has := has bare_env;
     callable := callable bare_env;
     invoke := invoke bare_env;
     construct := construct bare_env;
     instance_of := instance_of bare_env;
     createElement := createElement bare_env;
     style_prop := fun _ => Some (fun k =>
       if String.eqb k "perspective" || String.eqb k "transformOrigin"
          || String.eqb k "transition"
       then VStr "" else VUndef);
     style_width_after := style_width_after bare_env;
     global_localStorage := global_localStorage bare_env;
     obj_to_string := obj_to_string bare_env;
     array_inherited := array_inherited bare_env |}.

(** [window.XMLHttpRequest] has been set to [undefined]. *)
Definition undefined_xhr_env : env :=
  {| userAgent := userAgent bare_env;
     prop := prop bare_env;
     has := fun o k => Nat.eqb o window && String.eqb k "XMLHttpRequest";
     callable := callable bare_env;
     invoke := invoke bare_env;
     construct := construct bare_env;
     instance_of := instance_of bare_env;
     createElement := createElement bare_env;
     style_prop := style_prop bare_env;
     style_width_after := style_width_after bare_env;
     global_localStorage := global_localStorage bare_env;
     obj_to_string := obj_to_string bare_env;
     array_inherited := array_inherited bare_env |}.

(** A touch screen device: [ontouchstart] is on [window], and
    [DocumentTouch] is a truthy value that is not a function. *)
Definition touch_env : env :=
  {| userAgent := userAgent bare_env;
     prop := fun o k =>
       if Nat.eqb o window && String.eqb k "DocumentTouch" then VBool true
       else VUndef;
     has := fun o k => Nat.eqb o window && String.eqb k "ontouchstart";
     callable := callable bare_env;
     invoke := invoke bare_env;
     construct := construct bare_env;
     instance_of := instance_of bare_env;
     createElement := createElement bare_env;
     style_prop := style_prop bare_env;
     style_width_after := style_width_after bare_env;
     global_localStorage := global_localStorage bare_env;
     obj_to_string := obj_to_string bare_env;
     array_inherited := array_inherited bare_env |}.

(** [document.createElementNS] exists and returns [null]. *)
Definition null_svg_env : env :=
  {| userAgent := userAgent bare_env;
     prop := fun o k =>
       if Nat.eqb o document && String.eqb k "createElementNS" then VObj 80
       else VUndef;
     has := has bare_env;
     callable := fun f => Nat.eqb f 80;
     invoke := fun _ _ _ => Ok VNull;
     construct := construct bare_env;
     instance_of := instance_of bare_env;
     createElement := createElement bare_env;
     style_prop := style_prop bare_env;
     style_width_after := style_width_after bare_env;
     global_localStorage := global_localStorage bare_env;
     obj_to_string := obj_to_string bare_env;
     array_inherited := array_inherited bare_env |}.

(** The style lookups a memo entry accounts for: one scan of the five
    candidates. *)
Definition entry_cost (st : state) (p : string) : nat :=
  match memory st !! p with
  | Some _ => 5
  | None => 0
  end.

(** The style lookups the memo table of a state accounts for. *)
Definition scan_budget (st : state) : nat :=
  entry_cost st "perspective" + entry_cost st "transformOrigin"
  + entry_cost st "transition".

(** ** Vocabulary of the prefix resolver *)

(** [String(v)] as a function of the environment. *)
Definition to_string_outcome (e : env) (v : value) : outcome string :=
  match v with
  | VUndef => Ok "undefined"
  | VNull => Ok "null"
  | VBool true => Ok "true"
  | VBool false => Ok "false"
  | VNum z => Ok (Str.of_Z z)
  | VStr s => Ok s
  | VObj r => obj_to_string e r
  end.

(** One run of the loop of [pfx] over the visited values: the names
    looked up on the style object, in order, and how the loop ends: with
    the value it stores, with nothing found, or with an exception. *)
Fixpoint scan_trace (e : env) (sty : option (string -> value)) (items : list value)
  : list string * outcome (option value) :=
  match items with
  | [] => ([], Ok None)
  | item :: rest =>
      match sty with
      | None => ([], Throw TypeError)
      | Some f =>
          match to_string_outcome e item with
          | Throw x => ([], Throw x)
          | Ok k =>
              if recognised f k then ([k], Ok (Some item))
              else (k :: fst (scan_trace e sty rest), snd (scan_trace e sty rest))
          end
      end
  end.

(** What [pfx] returns after such a loop. *)
Definition scan_answer (o : outcome (option value)) : outcome value :=
  match o with
  | Ok (Some item) => Ok item
  | Ok None => Ok VNull
  | Throw x => Throw x
  end.

(** What the memo table holds after such a loop. *)
Definition scan_value (o : outcome (option value)) : value :=
  match o with
  | Ok (Some item) => item
  | _ => VNull
  end.

(** An environment of the usual kind: arrays inherit no enumerable
    property, and [Object.prototype] has none of the names the catalog
    resolves. *)
Definition standard (e : env) : Prop :=
  array_inherited e = []
  /\ forall p, p ∈ resolved_names -> prop e ObjectPrototype p = VUndef.

(** The inherited values that [for ... in] visits can be turned into
    property names. *)
Definition keys_convertible (e : env) : Prop :=
  Forall (fun kv : string * value => exists k, to_string_outcome e (snd kv) = Ok k)
         (array_inherited e).

(** The states of the module when every probe has run in an environment
    of the usual kind. *)
Inductive standard_run (e0 : env) (cls : string) : state -> Prop :=
| standard_init : standard_run e0 cls (init e0 cls)
| standard_probe name f e st :
    standard e ->
    (name, f) ∈ Feature.catalog ->
    standard_run e0 cls st ->
    standard_run e0 cls (snd (f e st))
| standard_testAll this e st :
    standard_run e0 cls st ->
    standard_run e0 cls (snd (Feature.testAll e this st)).

(** What the memo table holds for a name resolved in an environment of
    the usual kind: [null] when the style object cannot be indexed. *)
Definition memo_value (sty : option (string -> value)) (p : string) : value :=
  match sty with
  | Some f => first_recognised f (Util.props p)
  | None => VNull
  end.

(** Every memoized entry is the outcome of such a resolution. *)
Definition memo_ok (st : state) : Prop :=
  forall p v, memory st !! p = Some v -> v = memo_value (style st) p.

(** [st'] comes after [st]: any number of calls of [pfx], of probes and
    of [testAll], each in an environment of its own, lie between. *)
Inductive later (st : state) : state -> Prop :=
| later_now : later st st
| later_pfx e q st' : later st st' -> later st (snd (Util.pfx e q st'))
| later_probe name f e st' :
    (name, f) ∈ Feature.catalog -> later st st' -> later st (snd (f e st'))
| later_testAll this e st' :
    later st st' -> later st (snd (Feature.testAll e this st')).

(** The same state with another [util.old]. *)
Definition set_old (b : bool) (st : state) : state :=
  {| old := b; style := style st; memory := memory st;
     style_reads := style_reads st; className := className st |}.

(** The host operations a probe performs outside any [try] block complete
    normally.  For the three prefix probes these are the lookups on the
    captured style object; the probes not listed perform none. *)
Definition probe_safe (name : string) (e : env) (st : state) : Prop :=
  if existsb (String.eqb name) ["css3Dtransform"; "cssTransform"; "cssTransition"]
  then style st <> None /\ keys_convertible e
  else if String.eqb name "historyAPI"
  then falsy_or_object (prop e window "history")
  else if String.eqb name "canvas"
  then truthy (prop e (Util.create e "dummy") "getContext") = true ->
       exists v, getContext_outcome e "2d" = Ok v
  else if String.eqb name "svg"
  then truthy (prop e document "createElementNS") = true ->
       exists f r, prop e document "createElementNS" = VObj f
         /\ callable e f = true
         /\ invoke e f (VObj document)
              [VStr "http://www.w3.org/2000/svg"; VStr "svg"] = Ok (VObj r)
  else if String.eqb name "cors"
  then has e window "XMLHttpRequest" = true ->
       exists f o, prop e window "XMLHttpRequest" = VObj f
         /\ construct e f [] = Ok o
  else if String.eqb name "touch"
  then falsy_or_callable e (prop e window "DocumentTouch")
  else True.

(** A document whose elements have no style object. *)
Definition no_style_env : env :=
  {| userAgent := userAgent bare_env;
     prop := prop bare_env;
     has := has bare_env;
     callable := callable bare_env;
     invoke := invoke bare_env;
     construct := construct bare_env;
     instance_of := instance_of bare_env;
     createElement := createElement bare_env;
     style_prop := fun _ => None;
     style_width_after := style_width_after bare_env;
     global_localStorage := global_localStorage bare_env;
     obj_to_string := obj_to_string bare_env;
     array_inherited := array_inherited bare_env |}.

(** A page script has set [Array.prototype.extra = "zzz"], and the style
    object has a property [zzz]. *)
Definition inherited_env : env :=
  {| userAgent := userAgent bare_env;
     prop := prop bare_env;
     has := has bare_env;
     callable := callable bare_env;
     invoke := invoke bare_env;
     construct := construct bare_env;
     instance_of := instance_of bare_env;
     createElement := createElement bare_env;
     style_prop := fun _ => Some (fun k => if String.eqb k "zzz" then VStr "" else VUndef);
     style_width_after := style_width_after bare_env;
     global_localStorage := global_localStorage bare_env;
     obj_to_string := obj_to_string bare_env;
     array_inherited := [("extra", VStr "zzz")] |}.

(** A page script has set [Array.prototype.extra = undefined], and the
    style object has a property [undefined]. *)
Definition undefined_item_env : env :=
  {| userAgent := userAgent bare_env;
     prop := prop bare_env;
     has := has bare_env;
     callable := callable bare_env;
     invoke := invoke bare_env;
     construct := construct bare_env;
     instance_of := instance_of bare_env;
     createElement := createElement bare_env;
     style_prop := fun _ =>
       Some (fun k => if String.eqb k "undefined" then VStr "" else VUndef);
     style_width_after := style_width_after bare_env;
     global_localStorage := global_localStorage bare_env;
     obj_to_string := obj_to_string bare_env;
     array_inherited := [("extra", VUndef)] |}.

(** A page script has set [Object.prototype.transition = "inherited"]:
    every object without a property [transition] of its own shows this
    one, and [for ... in] visits it on every array.  The style object has
    a [transition] of its own. *)
Definition proto_transition_env : env :=
  {| userAgent := userAgent bare_env;
     prop := fun o k =>
       if Nat.eqb o ObjectPrototype && String.eqb k "transition"
       then VStr "inherited" else VUndef;
     has := has bare_env;
     callable := callable bare_env;
     invoke := invoke bare_env;
     construct := construct bare_env;
     instance_of := instance_of bare_env;
     createElement := createElement bare_env;
     style_prop := fun _ =>
       Some (fun k => if String.eqb k "transition" then VStr "" else VUndef);
     style_width_after := style_width_after bare_env;
     global_localStorage := global_localStorage bare_env;
     obj_to_string := obj_to_string bare_env;
     array_inherited := [("transition", VStr "inherited")] |}.

(** * Properties *)

Lemma state_eta st :
  {| old := old st; style := style st; memory := memory st;
     style_reads := style_reads st; className := className st |} = st.
Proof. now destruct st. Qed.

(** ** The prefix resolver *)
Section PfxFacts.
Variable e : env.

Lemma js_to_string_closed v st :
  js_to_string e v st = (to_string_outcome e v, st).
Proof. destruct v as [| |[]| | |]; reflexivity. Qed.

(** The state after the loop of [pfx] on behalf of [p]. *)
Lemma scan_closed p items : forall st,
  Util.scan e p items st =
  (match snd (scan_trace e (style st) items) with
   | Ok _ => Ok tt
   | Throw x => Throw x
   end,
   {| old := old st; style := style st;
      memory := match snd (scan_trace e (style st) items) with
                | Ok (Some item) => <[p := item]> (memory st)
                | _ => memory st
                end;
      style_reads := rev (fst (scan_trace e (style st) items)) ++ style_reads st;
      className := className st |}).
Proof.
  induction items as [|item rest IH]; intros st.
  - simpl. now rewrite state_eta.
  - cbn [Util.scan scan_trace]. unfold mbind, M_bind, Util.style_get.
    destruct (style st) as [f|] eqn:Hs.
    + rewrite js_to_string_closed.
      destruct (to_string_outcome e item) as [k|x].
      * fold (recognised f k). destruct (recognised f k) eqn:Hk.
        -- unfold Util.memory_put, modify, set_memory, log_read. cbn.
           now rewrite Hs.
        -- rewrite IH. cbn. rewrite Hs. now rewrite <- app_assoc.
      * cbn. rewrite <- Hs. now rewrite state_eta.
    + cbn. rewrite <- Hs. now rewrite state_eta.
Qed.

(** A name that [memory] already answers is returned without any scan. *)
Lemma pfx_hit p st v :
  default (prop e ObjectPrototype p) (memory st !! p) = v ->
  v <> VUndef ->
  Util.pfx e p st = (Ok v, st).
Proof.
  intros Hv Hne. unfold Util.pfx, mbind, M_bind, Util.memory_get.
  rewrite Hv. unfold typeof_undefined, strict_eq.
  rewrite bool_decide_eq_false_2 by exact Hne.
  unfold mret, M_ret. now rewrite Hv.
Qed.

(** A name that [memory] does not answer: [null] is stored, the loop
    runs, and what it found, if anything, is stored and returned. *)
Lemma pfx_miss p st :
  default (prop e ObjectPrototype p) (memory st !! p) = VUndef ->
  Util.pfx e p st =
  (scan_answer (snd (scan_trace e (style st) (Util.for_in_items e (Util.props p)))),
   {| old := old st; style := style st;
      memory := <[p := scan_value
                        (snd (scan_trace e (style st)
                                (Util.for_in_items e (Util.props p))))]> (memory st);
      style_reads :=
        rev (fst (scan_trace e (style st) (Util.for_in_items e (Util.props p))))
        ++ style_reads st;
      className := className st |}).
Proof.
  intros Hv. unfold Util.pfx, mbind, M_bind, Util.memory_get at 1.
  rewrite Hv. unfold typeof_undefined, strict_eq.
  rewrite bool_decide_eq_true_2 by reflexivity.
  unfold Util.memory_put, modify. rewrite scan_closed. cbn.
  destruct (snd (scan_trace e (style st) (Util.for_in_items e (Util.props p))))
    as [[item|]|x]; cbn.
  - unfold Util.memory_get. cbn.
    now rewrite insert_insert_eq, lookup_insert_eq.
  - unfold Util.memory_get. cbn. now rewrite lookup_insert_eq.
  - reflexivity.
Qed.

Lemma pfx_old p st : old (snd (Util.pfx e p st)) = old st.
Proof.
  destruct (decide (default (prop e ObjectPrototype p) (memory st !! p) = VUndef))
    as [Hu|Hd].
  - now rewrite (pfx_miss p st Hu).
  - now rewrite (pfx_hit p st _ eq_refl Hd).
Qed.

Lemma pfx_style p st : style (snd (Util.pfx e p st)) = style st.
Proof.
  destruct (decide (default (prop e ObjectPrototype p) (memory st !! p) = VUndef))
    as [Hu|Hd].
  - now rewrite (pfx_miss p st Hu).
  - now rewrite (pfx_hit p st _ eq_refl Hd).
Qed.

Lemma pfx_keeps_className p st :
  className (snd (Util.pfx e p st)) = className st.
Proof.
  destruct (decide (default (prop e ObjectPrototype p) (memory st !! p) = VUndef))
    as [Hu|Hd].
  - now rewrite (pfx_miss p st Hu).
  - now rewrite (pfx_hit p st _ eq_refl Hd).
Qed.

(** An entry with a defined value is never written again. *)
Lemma pfx_keeps_entry q st p v :
  memory st !! p = Some v ->
  v <> VUndef ->
  memory (snd (Util.pfx e q st)) !! p = Some v.
Proof.
  intros Hp Hv.
  destruct (decide (default (prop e ObjectPrototype q) (memory st !! q) = VUndef))
    as [Hu|Hd].
  - rewrite (pfx_miss q st Hu). cbn.
    destruct (decide (q = p)) as [->|Hne].
    + rewrite Hp in Hu. now destruct Hv.
    + now rewrite lookup_insert_ne.
  - now rewrite (pfx_hit q st _ eq_refl Hd).
Qed.

Lemma scan_answer_value o r : scan_answer o = Ok r -> scan_value o = r.
Proof. destruct o as [[item|]|x]; cbn; congruence. Qed.

(** A call that returned returns the same when repeated at once. *)
Lemma pfx_again p st r :
  fst (Util.pfx e p st) = Ok r ->
  fst (Util.pfx e p (snd (Util.pfx e p st))) = Ok r.
Proof.
  intros Hr.
  destruct (decide (default (prop e ObjectPrototype p) (memory st !! p) = VUndef))
    as [Hu|Hd].
  - rewrite (pfx_miss p st Hu) in Hr |- *. cbn [fst snd] in Hr |- *.
    pose proof (scan_answer_value _ _ Hr) as Hval.
    destruct (decide (r = VUndef)) as [Hund|Hdef].
    + rewrite pfx_miss; [exact Hr|]. cbn. rewrite lookup_insert_eq. cbn. congruence.
    + rewrite (pfx_hit p _ r); [reflexivity| |exact Hdef].
      cbn. rewrite lookup_insert_eq. cbn. exact Hval.
  - rewrite (pfx_hit p st _ eq_refl Hd) in Hr |- *. cbn [fst snd] in Hr |- *.
    now rewrite (pfx_hit p st _ eq_refl Hd).
Qed.

(** [pfx] does not look at [util.old]. *)
Lemma pfx_set_old p st b :
  Util.pfx e p (set_old b st) =
  (fst (Util.pfx e p st), set_old b (snd (Util.pfx e p st))).
Proof.
  destruct (decide (default (prop e ObjectPrototype p) (memory st !! p) = VUndef))
    as [Hu|Hd].
  - rewrite (pfx_miss p st Hu), (pfx_miss p (set_old b st) Hu). reflexivity.
  - rewrite (pfx_hit p st _ eq_refl Hd), (pfx_hit p (set_old b st) _ eq_refl Hd).
    reflexivity.
Qed.

(** A scan of names only, on a style object that can be indexed. *)
Lemma scan_trace_names f (l : list string) :
  scan_trace e (Some f) (map VStr l) =
  (scanned f l, Ok (VStr <$> List.find (recognised f) l)).
Proof.
  induction l as [|c l IH]; [reflexivity|].
  cbn [map scan_trace to_string_outcome scanned List.find].
  destruct (recognised f c); [reflexivity|]. now rewrite IH.
Qed.

Lemma scan_trace_no_style items :
  fst (scan_trace e None items) = []
  /\ scan_value (snd (scan_trace e None items)) = VNull.
Proof. now destruct items. Qed.

Lemma scanned_length sty ps : length (scanned sty ps) <= length ps.
Proof.
  induction ps as [|c ps IH]; simpl; [lia|].
  destruct (recognised sty c); simpl; lia.
Qed.

(** Where arrays inherit nothing, a resolution stores the first
    recognised piece, or [null]. *)
Lemma standard_scan_value sty p :
  array_inherited e = [] ->
  scan_value (snd (scan_trace e sty (Util.for_in_items e (Util.props p))))
  = memo_value sty p
  /\ length (fst (scan_trace e sty (Util.for_in_items e (Util.props p))))
     <= length (Util.props p).
Proof.
  intros Hin. unfold Util.for_in_items. rewrite Hin, app_nil_r.
  destruct sty as [f|].
  - rewrite scan_trace_names. cbn. split.
    + unfold first_recognised. now destruct (List.find _ _).
    + apply scanned_length.
  - destruct (scan_trace_no_style (map VStr (Util.props p))) as [-> ->].
    cbn. split; [reflexivity | lia].
Qed.

End PfxFacts.

Lemma first_recognised_defined sty ps : first_recognised sty ps <> VUndef.
Proof. unfold first_recognised. now destruct (List.find _ ps). Qed.

Lemma memo_value_defined sty p : memo_value sty p <> VUndef.
Proof. destruct sty; [apply first_recognised_defined | discriminate]. Qed.

(** ** Strings *)

Lemma append_nil (b : string) : "" +:+ b = b.
Proof. reflexivity. Qed.

Lemma append_cons x (a b : string) : String x a +:+ b = String x (a +:+ b).
Proof. reflexivity. Qed.

Lemma append_assoc (a b c : string) : (a +:+ b) +:+ c = a +:+ (b +:+ c).
Proof.
  induction a as [|x a IH]; [reflexivity|].
  rewrite !append_cons. now rewrite IH.
Qed.

Lemma split_not_nil sep s : Str.split sep s <> [].
Proof.
  destruct s as [|c r]; simpl; [discriminate|].
  destruct (Ascii.eqb c sep); [discriminate|].
  now destruct (Str.split sep r).
Qed.

(** Splitting distributes over a separator. *)
Lemma split_append sep (a b : string) :
  Str.split sep (a +:+ String sep b) = Str.split sep a ++ Str.split sep b.
Proof.
  induction a as [|c a IH].
  - rewrite append_nil. simpl. now rewrite Ascii.eqb_refl.
  - rewrite append_cons. simpl. rewrite IH.
    destruct (Ascii.eqb c sep); [reflexivity|].
    pose proof (split_not_nil sep a) as Hne.
    now destruct (Str.split sep a).
Qed.

(** Appending [" js"] adds one [js] token. *)
Lemma count_js_append c :
  count_token "js" (c +:+ " js") = S (count_token "js" c).
Proof.
  unfold count_token, tokens.
  change (c +:+ " js") with (c +:+ String " " "js").
  rewrite split_append, !filter_app, length_app.
  change (length (filter (fun u => u = "js") (filter (fun t => t <> "") (Str.split " " "js"))))
    with 1%nat.
  lia.
Qed.

(** ** Computations that leave the state alone, computations that return *)

Create HintDb pure_db.
Create HintDb total_db.

Section Combinators.
Context {A B : Type}.

Lemma pure_mret (a : A) : pure_comp (mret a : M A).
Proof. intros st. reflexivity. Qed.

Lemma pure_throw (x : exn) : pure_comp (throw x : M A).
Proof. intros st. reflexivity. Qed.

Lemma pure_lift (o : outcome A) : pure_comp (lift o).
Proof. intros st. reflexivity. Qed.

Lemma pure_bind (m : M A) (f : A -> M B) :
  pure_comp m -> (forall a, pure_comp (f a)) -> pure_comp (m ≫= f).
Proof.
  intros Hm Hf st. unfold mbind, M_bind.
  specialize (Hm st). destruct (m st) as [[a|x] st']; simpl in Hm; subst.
  - apply Hf.
  - reflexivity.
Qed.

Lemma pure_try_catch (m : M A) (h : exn -> M A) :
  pure_comp m -> (forall x, pure_comp (h x)) -> pure_comp (try_catch m h).
Proof.
  intros Hm Hh st. unfold try_catch.
  specialize (Hm st). destruct (m st) as [[a|x] st']; simpl in Hm; subst.
  - reflexivity.
  - apply Hh.
Qed.

Lemma pure_if (c : bool) (m1 m2 : M A) :
  pure_comp m1 -> pure_comp m2 -> pure_comp (if c then m1 else m2).
Proof. now destruct c. Qed.

Lemma total_mret (a : A) : total (mret a : M A).
Proof. intros st. now exists a. Qed.

Lemma total_bind (m : M A) (f : A -> M B) :
  total m -> (forall a, total (f a)) -> total (m ≫= f).
Proof.
  intros Hm Hf st. unfold mbind, M_bind.
  destruct (Hm st) as [a Ha]. destruct (m st) as [[a'|x] st']; simpl in Ha.
  - apply Hf.
  - discriminate.
Qed.

Lemma total_try_catch (m : M A) (h : exn -> M A) :
  (forall x, total (h x)) -> total (try_catch m h).
Proof.
  intros Hh st. unfold try_catch.
  destruct (m st) as [[a|x] st']; [now exists a | apply Hh].
Qed.

Lemma total_if (c : bool) (m1 m2 : M A) :
  total m1 -> total m2 -> total (if c then m1 else m2).
Proof. now destruct c. Qed.

End Combinators.

Lemma pure_get_state : pure_comp get_state.
Proof. intros st. reflexivity. Qed.

Lemma total_get_state : total get_state.
Proof. intros st. now exists st. Qed.

#[local] Hint Resolve pure_mret pure_throw pure_lift pure_bind pure_try_catch
  pure_if pure_get_state : pure_db.
#[local] Hint Resolve total_mret total_bind total_try_catch total_if
  total_get_state : total_db.

Section OperatorFacts.
Variable e : env.

Lemma pure_js_and a b : pure_comp a -> pure_comp b -> pure_comp (js_and a b).
Proof. intros. unfold js_and. auto with pure_db. Qed.

Lemma pure_js_or a b : pure_comp a -> pure_comp b -> pure_comp (js_or a b).
Proof. intros. unfold js_or. auto with pure_db. Qed.

Lemma pure_js_bool a : pure_comp a -> pure_comp (js_bool a).
Proof. intros. unfold js_bool. auto with pure_db. Qed.

Lemma pure_js_in k o : pure_comp (js_in e k o).
Proof. destruct o; simpl; auto with pure_db. Qed.

Lemma pure_js_get o k : pure_comp (js_get e o k).
Proof. destruct o; simpl; auto with pure_db. Qed.

Lemma pure_js_call f this args : pure_comp (js_call e f this args).
Proof. destruct f; simpl; auto with pure_db. Qed.

Lemma pure_js_call_method o k args : pure_comp (js_call_method e o k args).
Proof.
  unfold js_call_method. apply pure_bind; [apply pure_js_get|].
  intros f. apply pure_js_call.
Qed.

Lemma pure_js_new f args : pure_comp (js_new e f args).
Proof.
  destruct f; simpl; auto with pure_db.
  destruct (construct e r args); auto with pure_db.
Qed.

Lemma pure_js_instanceof o f : pure_comp (js_instanceof e o f).
Proof. destruct f; simpl; auto with pure_db. Qed.

Lemma pure_js_to_string v : pure_comp (js_to_string e v).
Proof. destruct v as [| |[]| | |]; simpl; auto with pure_db. Qed.

Lemma total_js_and a b : total a -> total b -> total (js_and a b).
Proof. intros. unfold js_and. auto with total_db. Qed.

Lemma total_js_or a b : total a -> total b -> total (js_or a b).
Proof. intros. unfold js_or. auto with total_db. Qed.

Lemma total_js_bool a : total a -> total (js_bool a).
Proof. intros. unfold js_bool. auto with total_db. Qed.

(** [in] applied to an object returns. *)
Lemma total_js_in_obj k r : total (js_in e k (VObj r)).
Proof. simpl. auto with total_db. Qed.

(** Reading a property of an object returns. *)
Lemma total_js_get_obj r k : total (js_get e (VObj r) k).
Proof. simpl. auto with total_db. Qed.

(** Reading a property of a truthy value returns. *)
Lemma total_js_get_truthy v k : truthy v = true -> total (js_get e v k).
Proof. destruct v; simpl; intros; try discriminate; auto with total_db. Qed.

End OperatorFacts.

#[local] Hint Resolve pure_js_and pure_js_or pure_js_bool pure_js_in pure_js_get
  pure_js_call pure_js_call_method pure_js_new pure_js_instanceof
  pure_js_to_string : pure_db.
#[local] Hint Resolve total_js_and total_js_or total_js_bool total_js_in_obj
  total_js_get_obj : total_db.

Lemma total_completes (m : M value) st : total m -> completes m st.
Proof.
  intros H. destruct (H st) as [v Hv]. unfold completes.
  destruct (m st) as [o st']. simpl in Hv. subst. eauto.
Qed.

(** A literal name is, or is not, in a literal list of names. *)
Ltac name_in := solve [repeat constructor].
Ltac name_not_in H :=
  exfalso;
  repeat (apply elem_of_cons in H as [H|H]; [discriminate H|]);
  now apply elem_of_nil in H.

(** Case analysis on membership in the catalog. *)
Ltac catalog_cases H :=
  unfold Feature.catalog in H;
  repeat (apply elem_of_cons in H as [H|H]; [injection H as -> ->|]);
  [..|now apply elem_of_nil in H].

(** ** Probes and the state *)

Lemma css3Dtransform_closed e st :
  Feature.css3Dtransform e st =
  if old st then (Ok (VBool false), st)
  else match Util.pfx e "perspective" st with
       | (Ok r, st') => (Ok (VBool (strict_neq r VNull)), st')
       | (Throw x, st') => (Throw x, st')
       end.
Proof.
  unfold Feature.css3Dtransform, js_and, js_bool, get_state, mbind, M_bind, mret, M_ret.
  destruct (old st); simpl; [reflexivity|].
  destruct (Util.pfx e "perspective" st) as [[r|x] st']; [|reflexivity].
  now destruct (strict_neq r VNull).
Qed.

Lemma cssTransform_closed e st :
  Feature.cssTransform e st =
  if old st then (Ok (VBool false), st)
  else match Util.pfx e "transformOrigin" st with
       | (Ok r, st') => (Ok (VBool (strict_neq r VNull)), st')
       | (Throw x, st') => (Throw x, st')
       end.
Proof.
  unfold Feature.cssTransform, js_and, js_bool, get_state, mbind, M_bind, mret, M_ret.
  destruct (old st); simpl; [reflexivity|].
  destruct (Util.pfx e "transformOrigin" st) as [[r|x] st']; [|reflexivity].
  now destruct (strict_neq r VNull).
Qed.

Lemma cssTransition_closed e st :
  Feature.cssTransition e st =
  match Util.pfx e "transition" st with
  | (Ok r, st') => (Ok (VBool (strict_neq r VNull)), st')
  | (Throw x, st') => (Throw x, st')
  end.
Proof.
  unfold Feature.cssTransition, js_bool, mbind, M_bind, mret, M_ret.
  destruct (Util.pfx e "transition" st) as [[r|x] st']; [|reflexivity].
  now destruct (strict_neq r VNull).
Qed.

(** The probes that do not resolve a prefix leave the state alone. *)
Lemma probe_pure name f :
  (name, f) ∈ Feature.catalog ->
  name ∉ ["css3Dtransform"; "cssTransform"; "cssTransition"] ->
  forall e, pure_comp (f e).
Proof.
  intros Hin Hn e. catalog_cases Hin;
    try (exfalso; apply Hn; name_in);
    unfold Feature.addEventListener, Feature.querySelectorAll, Feature.matchMedia,
      Feature.deviceMotion, Feature.deviceOrientation, Feature.contextMenu,
      Feature.classList, Feature.placeholder, Feature.localStorage,
      Feature.historyAPI, Feature.serviceWorker, Feature.viewportUnit,
      Feature.remUnit, Feature.canvas, Feature.svg, Feature.webGL, Feature.cors,
      Feature.touch, Feature.async, Feature.defer, Feature.geolocation,
      Feature.srcset, Feature.sizes, Feature.pictureElement;
    cbv zeta; auto 12 with pure_db.
Qed.

Lemma preserved_refl st : preserved st st.
Proof. now split. Qed.

Lemma preserved_pfx e p st : preserved st (snd (Util.pfx e p st)).
Proof. split; [apply pfx_old | apply pfx_style]. Qed.

Lemma preserved_probe name f e st :
  (name, f) ∈ Feature.catalog -> preserved st (snd (f e st)).
Proof.
  intros Hin.
  destruct (decide (name ∈ ["css3Dtransform"; "cssTransform"; "cssTransition"]))
    as [Hcss|Hother].
  - catalog_cases Hin; try (name_not_in Hcss).
    + rewrite css3Dtransform_closed. destruct (old st) eqn:Ho;
        [apply preserved_refl|].
      pose proof (preserved_pfx e "perspective" st) as Hp.
      destruct (Util.pfx e "perspective" st) as [[r|x] st']; exact Hp.
    + rewrite cssTransform_closed. destruct (old st) eqn:Ho;
        [apply preserved_refl|].
      pose proof (preserved_pfx e "transformOrigin" st) as Hp.
      destruct (Util.pfx e "transformOrigin" st) as [[r|x] st']; exact Hp.
    + rewrite cssTransition_closed.
      pose proof (preserved_pfx e "transition" st) as Hp.
      destruct (Util.pfx e "transition" st) as [[r|x] st']; exact Hp.
  - rewrite (probe_pure name f Hin Hother e st). apply preserved_refl.
Qed.

(** ** The aggregator *)
Section AggregatorFacts.
Variable e : env.
Variable this : Feature.this_value.

Lemma testAll_closed st :
  Feature.testAll e this st =
  match Feature.testAll_loop e this (Feature.for_in_keys this) " js" st with
  | (Ok classes, st') =>
      (Ok VUndef, set_className (className st' +:+ Str.toLowerCase classes) st')
  | (Throw x, st') => (Throw x, st')
  end.
Proof.
  unfold Feature.testAll, mbind, M_bind.
  destruct (Feature.testAll_loop e this (Feature.for_in_keys this) " js" st)
    as [[c|x] st']; reflexivity.
Qed.

(** The loop of [testAll]: it throws at the first member it would call,
    and otherwise hands the accumulator back untouched. *)
Lemma testAll_loop_exact keys : forall classes st,
  Feature.testAll_loop e this keys classes st =
  if existsb
       (fun test => negb (String.eqb test "testAll")
                    && negb (String.eqb test "constructor")
                    && truthy (Feature.this_get this test)) keys
  then (Throw TypeError, st)
  else (Ok classes, st).
Proof.
  induction keys as [|k rest IH]; intros classes st; [reflexivity|].
  cbn [Feature.testAll_loop existsb].
  destruct (negb (k =? "testAll")%string && negb (k =? "constructor")%string
            && truthy (Feature.this_get this k)); [reflexivity|].
  apply IH.
Qed.

Lemma preserved_testAll st : preserved st (snd (Feature.testAll e this st)).
Proof.
  rewrite testAll_closed, testAll_loop_exact.
  destruct (existsb _ _); now split.
Qed.

End AggregatorFacts.

(** On the [Feature] object the first enumerated member is a function, so
    the loop calls the string ["css3Dtransform"] and throws. *)
Lemma testAll_Feature_throws e st :
  Feature.testAll e Feature.Feature_object st = (Throw TypeError, st).
Proof. reflexivity. Qed.

(** ** Reachable states *)

Lemma reachable_preserved e0 cls st :
  reachable e0 cls st -> preserved (init e0 cls) st.
Proof.
  induction 1 as [|name f e st Hin Hr IH|this e st Hr IH].
  - apply preserved_refl.
  - destruct IH as (Ho & Hs).
    destruct (preserved_probe name f e st Hin) as (Ho' & Hs').
    split; congruence.
  - destruct IH as (Ho & Hs).
    destruct (preserved_testAll e this st) as (Ho' & Hs').
    split; congruence.
Qed.

Lemma reachable_old e0 cls st :
  reachable e0 cls st -> old st = Regex.test Util.old_pattern (userAgent e0).
Proof. intros H. now destruct (reachable_preserved _ _ _ H) as (-> & _). Qed.

(** ** Context acquisition *)

Lemma getContext_call e kind st :
  js_call_method e (VObj (Util.create e "dummy")) "getContext" [VStr kind] st =
  (getContext_outcome e kind, st).
Proof.
  unfold js_call_method, getContext_outcome, js_get, mbind, M_bind, mret, M_ret.
  simpl.
  destruct (prop e (Util.create e "dummy") "getContext") as [| |b|z|s|r];
    simpl; try reflexivity.
  now destruct (callable e r).
Qed.

Lemma webGL_closed e st :
  Feature.webGL e st = (Ok (VBool (webGL_result e)), st).
Proof.
  unfold Feature.webGL, webGL_result, try_catch, js_bool, js_and, js_or.
  unfold mbind, M_bind. cbn [js_get mret M_ret].
  destruct (truthy (prop e window "WebGLRenderingContext")) eqn:Hw; simpl.
  - rewrite !getContext_call.
    destruct (getContext_outcome e "webgl") as [ctx|x]; [|reflexivity].
    destruct (truthy ctx) eqn:Hc.
    + unfold mret, M_ret. now rewrite Hc.
    + rewrite getContext_call.
      destruct (getContext_outcome e "experimental-webgl") as [ctx'|x];
        reflexivity.
  - unfold mret, M_ret. now rewrite Hw.
Qed.

(** ** Runs in environments of the usual kind *)

Lemma standard_run_reachable e0 cls st :
  standard_run e0 cls st -> reachable e0 cls st.
Proof.
  induction 1 as [|name f e st He Hin Hr IH|this e st Hr IH].
  - apply reach_init.
  - now apply (reach_probe e0 cls name).
  - now apply reach_testAll.
Qed.

Lemma pfx_memo_ok e p st :
  array_inherited e = [] -> memo_ok st -> memo_ok (snd (Util.pfx e p st)).
Proof.
  intros Hin Hok.
  destruct (decide (default (prop e ObjectPrototype p) (memory st !! p) = VUndef))
    as [Hu|Hd].
  - rewrite (pfx_miss e p st Hu). intros q v. cbn.
    destruct (decide (p = q)) as [->|Hne].
    + rewrite lookup_insert_eq. intros [= <-].
      apply (standard_scan_value e (style st) q Hin).
    + rewrite lookup_insert_ne by exact Hne. apply Hok.
  - now rewrite (pfx_hit e p st _ eq_refl Hd).
Qed.

Lemma probe_memo_ok name f e st :
  array_inherited e = [] ->
  (name, f) ∈ Feature.catalog ->
  memo_ok st -> memo_ok (snd (f e st)).
Proof.
  intros He Hin Hok.
  destruct (decide (name ∈ ["css3Dtransform"; "cssTransform"; "cssTransition"]))
    as [Hcss|Hother].
  - catalog_cases Hin; try (name_not_in Hcss).
    + rewrite css3Dtransform_closed. destruct (old st); [exact Hok|].
      pose proof (pfx_memo_ok e "perspective" st He Hok) as Hp.
      now destruct (Util.pfx e "perspective" st) as [[r|x] st'].
    + rewrite cssTransform_closed. destruct (old st); [exact Hok|].
      pose proof (pfx_memo_ok e "transformOrigin" st He Hok) as Hp.
      now destruct (Util.pfx e "transformOrigin" st) as [[r|x] st'].
    + rewrite cssTransition_closed.
      pose proof (pfx_memo_ok e "transition" st He Hok) as Hp.
      now destruct (Util.pfx e "transition" st) as [[r|x] st'].
  - now rewrite (probe_pure name f Hin Hother e st).
Qed.

Lemma standard_run_memo_ok e0 cls st : standard_run e0 cls st -> memo_ok st.
Proof.
  induction 1 as [|name f e st He Hin Hr IH|this e st Hr IH].
  - intros p v. cbn. now rewrite lookup_empty.
  - exact (probe_memo_ok name f e st (proj1 He) Hin IH).
  - rewrite testAll_closed, testAll_loop_exact. now destruct (existsb _ _).
Qed.

(** In such a run every call of [pfx] on a resolved name, the first as
    the later ones, answers with the first recognised piece. *)
Lemma pfx_standard_answer e0 cls st e p sty :
  standard_run e0 cls st ->
  standard e ->
  style (init e0 cls) = Some sty ->
  p ∈ resolved_names ->
  fst (Util.pfx e p st) = Ok (first_recognised sty (Util.props p)).
Proof.
  intros Hr [Hin Hproto] Hsty Hp.
  pose proof (standard_run_memo_ok _ _ _ Hr) as Hok.
  destruct (reachable_preserved _ _ _ (standard_run_reachable _ _ _ Hr)) as (_ & Hs).
  rewrite Hsty in Hs.
  destruct (memory st !! p) as [v|] eqn:Hm.
  - pose proof (Hok p v Hm) as Hv. rewrite Hs in Hv. cbn in Hv.
    rewrite (pfx_hit e p st v); [now rewrite Hv | now rewrite Hm |].
    rewrite Hv. apply first_recognised_defined.
  - rewrite pfx_miss by (rewrite Hm; cbn; now apply Hproto).
    cbn [fst]. unfold Util.for_in_items. rewrite Hin, app_nil_r, Hs.
    rewrite scan_trace_names. cbn. unfold first_recognised.
    now destruct (List.find _ _).
Qed.

Lemma props_resolved p : p ∈ resolved_names -> Util.props p = candidates p.
Proof.
  intros Hp. unfold resolved_names in Hp.
  repeat (apply elem_of_cons in Hp as [->|Hp]; [vm_compute; reflexivity|]).
  now apply elem_of_nil in Hp.
Qed.

(** * The prefix resolver: resolution order and memoization *)

(** C3, as stated, fails, and on a name the catalog passes.  Where the
    elements of the document have no style object the lookup throws, so
    [pfx("transition")] and [cssTransition()] throw instead of answering
    [null].  Where a script has given arrays an enumerable property, its
    value is looked up after the five candidates and can be the answer.
    Where [Object.prototype] has a property [transition], that property
    is the answer and nothing is looked up, though the style object
    recognises [transition]. *)
Lemma pfx_order_counterexample :
  fst (Util.pfx no_style_env "transition" (init no_style_env "")) = Throw TypeError
  /\ fst (Feature.cssTransition no_style_env (init no_style_env "")) = Throw TypeError
  /\ fst (Util.pfx inherited_env "transition" (init inherited_env "")) = Ok (VStr "zzz")
  /\ ("zzz" ∉ candidates "transition")
  /\ (exists sty, style (init proto_transition_env "") = Some sty
                  /\ recognised sty "transition" = true)
  /\ fst (Util.pfx proto_transition_env "transition" (init proto_transition_env ""))
     = Ok (VStr "inherited")
  /\ style_reads (snd (Util.pfx proto_transition_env "transition"
                         (init proto_transition_env ""))) = []
  /\ ("inherited" ∉ candidates "transition").
Proof.
  split; [vm_compute; reflexivity|]. split; [vm_compute; reflexivity|].
  split; [vm_compute; reflexivity|].
  split; [intros H; vm_compute in H; name_not_in H|].
  split; [eexists; split; reflexivity|].
  split; [vm_compute; reflexivity|]. split; [vm_compute; reflexivity|].
  intros H. vm_compute in H. name_not_in H.
Qed.

(** C3, amended: let [p] be one of the names the catalog resolves
    ([perspective], [transformOrigin], [transition]), let the style object
    captured at initialisation be one that can be indexed, and let the
    probes run in environments of the usual kind (arrays inherit no
    enumerable property, [Object.prototype] has none of the three names).
    Then [util.pfx(p)] is the first of [p], [Webkit]+P, [Moz]+P, [O]+P,
    [ms]+P (P the capitalized name) that the style object recognises, and
    [null] when none is; if [p] itself is recognised, [p] is the answer
    whatever else is; and a name not yet in the memo table is looked up
    on the style object in that order, up to the first recognised
    candidate. *)
Theorem pfx_resolution_order e0 cls st e p sty :
  standard_run e0 cls st ->
  standard e ->
  style (init e0 cls) = Some sty ->
  p ∈ resolved_names ->
  fst (Util.pfx e p st) = Ok (first_recognised sty (candidates p))
  /\ (recognised sty p = true -> fst (Util.pfx e p st) = Ok (VStr p))
  /\ (memory st !! p = None ->
      style_reads (snd (Util.pfx e p st)) =
      rev (scanned sty (candidates p)) ++ style_reads st).
Proof.
  intros Hr Hstd Hsty Hp.
  pose proof (pfx_standard_answer e0 cls st e p sty Hr Hstd Hsty Hp) as Hres.
  rewrite (props_resolved p Hp) in Hres.
  split; [exact Hres|]. split.
  - intros Hrec. rewrite Hres. unfold first_recognised, candidates.
    cbn [List.find]. now rewrite Hrec.
  - intros Hm. destruct Hstd as [Hin Hproto].
    destruct (reachable_preserved _ _ _ (standard_run_reachable _ _ _ Hr))
      as (_ & Hs).
    rewrite Hsty in Hs.
    rewrite pfx_miss by (rewrite Hm; cbn; now apply Hproto).
    cbn [snd style_reads]. unfold Util.for_in_items.
    rewrite Hin, app_nil_r, Hs, scan_trace_names. cbn [fst].
    now rewrite (props_resolved p Hp).
Qed.

Lemma pfx_resolution_order_witness :
  standard_run old_android_env "" (init old_android_env "")
  /\ standard old_android_env
  /\ (exists sty, style (init old_android_env "") = Some sty)
  /\ "perspective" ∈ resolved_names
  /\ fst (Util.pfx old_android_env "perspective" (init old_android_env "")) =
     Ok (VStr "WebkitPerspective").
Proof.
  assert (Hr : standard_run old_android_env "" (init old_android_env ""))
    by apply standard_init.
  assert (Hstd : standard old_android_env)
    by (split; [reflexivity | intros p _; reflexivity]).
  assert (Hp : "perspective" ∈ resolved_names) by name_in.
  split; [exact Hr|]. split; [exact Hstd|].
  split; [eexists; reflexivity|]. split; [exact Hp|].
  exact (proj1 (pfx_resolution_order old_android_env "" (init old_android_env "")
                  old_android_env "perspective" _ Hr Hstd eq_refl Hp)).
Defined.

(** ** Memoization *)

Lemma probe_keeps_entry name f e st p v :
  (name, f) ∈ Feature.catalog ->
  memory st !! p = Some v ->
  v <> VUndef ->
  memory (snd (f e st)) !! p = Some v.
Proof.
  intros Hin Hp Hv.
  destruct (decide (name ∈ ["css3Dtransform"; "cssTransform"; "cssTransition"]))
    as [Hcss|Hother].
  - catalog_cases Hin; try (name_not_in Hcss).
    + rewrite css3Dtransform_closed. destruct (old st); [exact Hp|].
      pose proof (pfx_keeps_entry e "perspective" st p v Hp Hv) as Hk.
      now destruct (Util.pfx e "perspective" st) as [[r|x] st'].
    + rewrite cssTransform_closed. destruct (old st); [exact Hp|].
      pose proof (pfx_keeps_entry e "transformOrigin" st p v Hp Hv) as Hk.
      now destruct (Util.pfx e "transformOrigin" st) as [[r|x] st'].
    + rewrite cssTransition_closed.
      pose proof (pfx_keeps_entry e "transition" st p v Hp Hv) as Hk.
      now destruct (Util.pfx e "transition" st) as [[r|x] st'].
  - now rewrite (probe_pure name f Hin Hother e st).
Qed.

Lemma testAll_keeps_memory e this st :
  memory (snd (Feature.testAll e this st)) = memory st.
Proof.
  rewrite testAll_closed, testAll_loop_exact. now destruct (existsb _ _).
Qed.

Lemma later_keeps_entry st st' p v :
  later st st' ->
  memory st !! p = Some v ->
  v <> VUndef ->
  memory st' !! p = Some v.
Proof.
  intros Hl Hp Hv.
  induction Hl as [|e q st' Hl IH|name f e st' Hin Hl IH|this e st' Hl IH].
  - exact Hp.
  - now apply pfx_keeps_entry.
  - now apply (probe_keeps_entry name).
  - now rewrite testAll_keeps_memory.
Qed.

Lemma scan_trace_length e sty items :
  length (fst (scan_trace e sty items)) <= length items.
Proof.
  induction items as [|item rest IH]; cbn; [lia|].
  destruct sty as [f|]; [|cbn; lia].
  destruct (to_string_outcome e item) as [k|x]; [|cbn; lia].
  destruct (recognised f k); cbn in *; lia.
Qed.




(** * Probes that guard a host operation *)

(** C5: when the guarded host operation throws (reading the global
    [localStorage], assigning the unit string to [style.width], acquiring
    a WebGL context), the probe returns [false] and nothing escapes. *)
Theorem guarded_probes_swallow e st x :
  (global_localStorage e = Throw x ->
   Feature.localStorage e st = (Ok (VBool false), st))
  /\ (style_width_after e (Util.create e "dummy") "1vw" = Throw x ->
      Feature.viewportUnit e st = (Ok (VBool false), st))
  /\ (style_width_after e (Util.create e "dummy") "1rem" = Throw x ->
      Feature.remUnit e st = (Ok (VBool false), st))
  /\ (getContext_outcome e "webgl" = Throw x
      \/ (exists ctx, getContext_outcome e "webgl" = Ok ctx /\ truthy ctx = false
                      /\ getContext_outcome e "experimental-webgl" = Throw x) ->
      Feature.webGL e st = (Ok (VBool false), st)).
Proof.
  split; [|split; [|split]].
  - intros H. unfold Feature.localStorage, try_catch, js_and, mbind, M_bind, lift.
    now rewrite H.
  - intros H. unfold Feature.viewportUnit, try_catch, mbind, M_bind, lift.
    now rewrite H.
  - intros H. unfold Feature.remUnit, try_catch, mbind, M_bind, lift.
    now rewrite H.
  - intros H. rewrite webGL_closed. unfold webGL_result.
    destruct H as [H|(ctx & H1 & H2 & H3)].
    + rewrite H. now rewrite andb_false_r.
    + rewrite H1, H2, H3. now rewrite andb_false_r.
Qed.

Lemma guarded_probes_swallow_witness :
  Feature.localStorage hostile_env (init hostile_env "") =
    (Ok (VBool false), init hostile_env "")
  /\ Feature.viewportUnit hostile_env (init hostile_env "") =
    (Ok (VBool false), init hostile_env "")
  /\ Feature.remUnit hostile_env (init hostile_env "") =
    (Ok (VBool false), init hostile_env "")
  /\ Feature.webGL hostile_env (init hostile_env "") =
    (Ok (VBool false), init hostile_env "").
Proof.
  destruct (guarded_probes_swallow hostile_env (init hostile_env "") (HostError 3))
    as (Hls & _).
  destruct (guarded_probes_swallow hostile_env (init hostile_env "") (HostError 2))
    as (_ & Hvw & Hrem & _).
  destruct (guarded_probes_swallow hostile_env (init hostile_env "") (HostError 1))
    as (_ & _ & _ & Hgl).
  split; [|split; [|split]].
  - apply Hls. reflexivity.
  - apply Hvw. reflexivity.
  - apply Hrem. reflexivity.
  - apply Hgl. left. reflexivity.
Defined.

(** C7: [webGL()] is [false] whenever [window.WebGLRenderingContext] is
    missing, and it is [true] only if that constructor exists and a
    ["webgl"] or ["experimental-webgl"] context is acquired from the
    transient element. *)
Theorem webGL_requires_both e st :
  (truthy (prop e window "WebGLRenderingContext") = false ->
   Feature.webGL e st = (Ok (VBool false), st))
  /\ (fst (Feature.webGL e st) = Ok (VBool true) ->
      truthy (prop e window "WebGLRenderingContext") = true
      /\ exists ctx, truthy ctx = true
           /\ (getContext_outcome e "webgl" = Ok ctx
               \/ getContext_outcome e "experimental-webgl" = Ok ctx)).
Proof.
  rewrite webGL_closed. unfold webGL_result. split.
  - intros ->. reflexivity.
  - simpl. intros [= H]. apply andb_true_iff in H as [Hw Hctx].
    split; [exact Hw|].
    destruct (getContext_outcome e "webgl") as [ctx|x]; [|discriminate].
    destruct (truthy ctx) eqn:Hc; [now eauto|].
    destruct (getContext_outcome e "experimental-webgl") as [ctx'|x'];
      [now eauto | discriminate].
Qed.

Lemma webGL_requires_both_witness :
  Feature.webGL bare_env (init bare_env "") = (Ok (VBool false), init bare_env "")
  /\ fst (Feature.webGL webgl_env (init webgl_env "")) = Ok (VBool true)
  /\ truthy (prop webgl_env window "WebGLRenderingContext") = true
  /\ exists ctx, truthy ctx = true
       /\ (getContext_outcome webgl_env "webgl" = Ok ctx
           \/ getContext_outcome webgl_env "experimental-webgl" = Ok ctx).
Proof.
  split; [|split].
  - apply (webGL_requires_both bare_env (init bare_env "")). reflexivity.
  - reflexivity.
  - apply (webGL_requires_both webgl_env (init webgl_env "")). reflexivity.
Defined.

(** * The denylist of old devices *)

(** The pattern on some user agents: old Android and Silk match, and so
    does any [Android 1...] or [Android 2...], the dot being unescaped. *)
Lemma old_pattern_examples :
  Regex.test Util.old_pattern "Mozilla/5.0 (Linux; U; Android 2.3.6; en-us)" = true
  /\ Regex.test Util.old_pattern "Mozilla/5.0 (Linux; U; android 1.6; en-us)" = true
  /\ Regex.test Util.old_pattern "Mozilla/5.0 (Macintosh) Silk/1.0.13" = true
  /\ Regex.test Util.old_pattern "Mozilla/5.0 (Linux; Android 4.4.2; Nexus 5)" = false
  /\ Regex.test Util.old_pattern "Mozilla/5.0 (X11; Linux x86_64)" = false
  /\ Regex.test Util.old_pattern "Mozilla/5.0 (Linux; Android 10; Pixel 3)" = true.
Proof. vm_compute. repeat split. Qed.

(** C6: when the user agent at initialisation matches the denylist
    pattern, [css3Dtransform()] and [cssTransform()] return [false]
    whatever the prefix resolver would answer, without calling it, while
    [cssTransition()] is [pfx("transition") !== null] as it is without the
    denylist: it returns or throws as [pfx] does, and its result is the
    same whatever [util.old] is. *)
Theorem denylist_gate e0 cls st e :
  Regex.test Util.old_pattern (userAgent e0) = true ->
  reachable e0 cls st ->
  Feature.css3Dtransform e st = (Ok (VBool false), st)
  /\ Feature.cssTransform e st = (Ok (VBool false), st)
  /\ Feature.cssTransition e st =
     match Util.pfx e "transition" st with
     | (Ok r, st') => (Ok (VBool (strict_neq r VNull)), st')
     | (Throw x, st') => (Throw x, st')
     end
  /\ forall b, fst (Feature.cssTransition e (set_old b st))
               = fst (Feature.cssTransition e st).
Proof.
  intros Hua Hr. pose proof (reachable_old _ _ _ Hr) as Hold.
  rewrite Hua in Hold.
  rewrite css3Dtransform_closed, cssTransform_closed, Hold.
  split; [reflexivity|]. split; [reflexivity|].
  split; [apply cssTransition_closed|].
  intros b. rewrite !cssTransition_closed, pfx_set_old.
  now destruct (Util.pfx e "transition" st) as [[r|x] st'].
Qed.

Lemma denylist_gate_witness :
  Regex.test Util.old_pattern (userAgent old_android_env) = true
  /\ fst (Util.pfx old_android_env "perspective" (init old_android_env "")) =
     Ok (VStr "WebkitPerspective")
  /\ Feature.css3Dtransform old_android_env (init old_android_env "") =
     (Ok (VBool false), init old_android_env "")
  /\ Feature.cssTransform old_android_env (init old_android_env "") =
     (Ok (VBool false), init old_android_env "")
  /\ fst (Feature.cssTransition old_android_env (init old_android_env "")) =
     Ok (VBool true).
Proof.
  destruct (denylist_gate old_android_env "" (init old_android_env "")
              old_android_env eq_refl (reach_init old_android_env ""))
    as (H3d & Htr & _).
  split; [vm_compute; reflexivity|]. split; [vm_compute; reflexivity|].
  split; [exact H3d|]. split; [exact Htr | vm_compute; reflexivity].
Defined.

(** C10: [util.old] is the value computed from [navigator.userAgent] at
    initialisation.  However the module is used afterwards, in whatever
    environments, the flag keeps that value, and a different user agent at
    call time changes nothing in [css3Dtransform()] and [cssTransform()]. *)
Theorem old_flag_fixed e0 cls st :
  reachable e0 cls st ->
  old st = Regex.test Util.old_pattern (userAgent e0)
  /\ forall e ua,
       Feature.css3Dtransform (with_userAgent ua e) st = Feature.css3Dtransform e st
       /\ Feature.cssTransform (with_userAgent ua e) st = Feature.cssTransform e st.
Proof.
  intros Hr. split; [exact (reachable_old _ _ _ Hr)|].
  intros e ua. split; reflexivity.
Qed.

Lemma old_flag_fixed_witness :
  let ua := "Mozilla/5.0 (Linux; U; Android 2.3.6; en-us) AppleWebKit/533.1" in
  let st := snd (Feature.css3Dtransform (with_userAgent ua bare_env) (init bare_env "")) in
  Regex.test Util.old_pattern ua = true
  /\ old st = false
  /\ Feature.css3Dtransform (with_userAgent ua old_android_env) st =
     Feature.css3Dtransform old_android_env st.
Proof.
  intros ua st.
  assert (Hr : reachable bare_env "" st).
  { apply (reach_probe bare_env "" "css3Dtransform" Feature.css3Dtransform);
      [name_in | apply reach_init]. }
  destruct (old_flag_fixed bare_env "" st Hr) as (Hold & Hsame).
  split; [vm_compute; reflexivity|].
  split; [rewrite Hold; vm_compute; reflexivity|].
  exact (proj1 (Hsame old_android_env ua)).
Defined.

(** * Determinism of the probes *)

Lemma gated_pfx_again e p st (gate : bool) v st1 :
  (if gate then (Ok (VBool false), st)
   else match Util.pfx e p st with
        | (Ok r, st') => (Ok (VBool (strict_neq r VNull)), st')
        | (Throw x, st') => (Throw x, st')
        end) = (Ok v, st1) ->
  fst (if gate then (Ok (VBool false), st1)
       else match Util.pfx e p st1 with
            | (Ok r, st') => (Ok (VBool (strict_neq r VNull)), st')
            | (Throw x, st') => (Throw x, st')
            end) = Ok v.
Proof.
  destruct gate; [now intros [= <- _]|].
  pose proof (pfx_again e p st) as Hagain.
  destruct (Util.pfx e p st) as [[r|x] st'] eqn:H1; [|discriminate].
  intros [= <- <-]. specialize (Hagain r eq_refl). cbn [snd] in Hagain.
  destruct (Util.pfx e p st') as [[r'|x'] st'']; cbn in *; congruence.
Qed.

(** C9, as stated, fails: where the elements of the document have no
    style object, the first [css3Dtransform()] stores [null] in the memo
    table and then throws a [TypeError] at the first lookup; the second
    call finds the stored [null] and returns [false]. *)
Lemma probes_deterministic_counterexample :
  let st0 := init no_style_env "" in
  let st1 := snd (Feature.css3Dtransform no_style_env st0) in
  ("css3Dtransform", Feature.css3Dtransform) ∈ Feature.catalog
  /\ fst (Feature.css3Dtransform no_style_env st0) = Throw TypeError
  /\ memory st1 !! "perspective" = Some VNull
  /\ fst (Feature.css3Dtransform no_style_env st1) = Ok (VBool false).
Proof.
  split; [name_in|]. vm_compute. repeat split.
Qed.

(** C9, amended: a probe that returns normally returns the same result
    when it is called again at once in the same environment; this
    includes the three probes whose first call may fill the memo table of
    the prefix resolver. *)
Theorem probes_deterministic name f e st v st1 :
  (name, f) ∈ Feature.catalog ->
  f e st = (Ok v, st1) ->
  fst (f e st1) = Ok v.
Proof.
  intros Hin Hrun.
  destruct (decide (name ∈ ["css3Dtransform"; "cssTransform"; "cssTransition"]))
    as [Hcss|Hother].
  - assert (Ho : old st1 = old st).
    { replace st1 with (snd (f e st)) by now rewrite Hrun.
      apply (preserved_probe name f e st Hin). }
    catalog_cases Hin; try (name_not_in Hcss).
    + rewrite css3Dtransform_closed in Hrun |- *. rewrite Ho.
      exact (gated_pfx_again e "perspective" st (old st) v st1 Hrun).
    + rewrite cssTransform_closed in Hrun |- *. rewrite Ho.
      exact (gated_pfx_again e "transformOrigin" st (old st) v st1 Hrun).
    + rewrite cssTransition_closed in Hrun |- *.
      exact (gated_pfx_again e "transition" st false v st1 Hrun).
  - pose proof (probe_pure name f Hin Hother e st) as Hp.
    rewrite Hrun in Hp. cbn in Hp. subst st1. now rewrite Hrun.
Qed.

Lemma probes_deterministic_witness :
  let st0 := init old_android_env "" in
  let st1 := snd (Feature.cssTransition old_android_env st0) in
  ("cssTransition", Feature.cssTransition) ∈ Feature.catalog
  /\ Feature.cssTransition old_android_env st0 = (Ok (VBool true), st1)
  /\ memory st0 !! "transition" = None
  /\ memory st1 !! "transition" = Some (VStr "WebkitTransition")
  /\ fst (Feature.cssTransition old_android_env st1) = Ok (VBool true).
Proof.
  intros st0 st1.
  assert (Hin : ("cssTransition", Feature.cssTransition) ∈ Feature.catalog)
    by name_in.
  assert (Hrun : Feature.cssTransition old_android_env st0 = (Ok (VBool true), st1))
    by (vm_compute; reflexivity).
  split; [exact Hin|]. split; [exact Hrun|].
  split; [reflexivity|]. split; [vm_compute; reflexivity|].
  exact (probes_deterministic "cssTransition" Feature.cssTransition
           old_android_env st0 (VBool true) st1 Hin Hrun).
Defined.

(** * The aggregator *)

(** C1 at the scenario of the specification: the environment supports
    exactly canvas and svg and the root element has no class yet.  Invoked
    as [feature.testAll()], the aggregator throws a [TypeError] at the
    first member it enumerates, because it calls the member's name instead
    of the member, and the class attribute stays empty. *)
Theorem testAll_canvas_svg :
  let st := init canvas_svg_env "" in
  supported canvas_svg_env st = ["canvas"; "svg"]
  /\ Feature.testAll canvas_svg_env Feature.Feature_object st = (Throw TypeError, st)
  /\ className (snd (Feature.testAll canvas_svg_env Feature.Feature_object st)) = ""
  /\ tokens (className (snd (Feature.testAll canvas_svg_env Feature.Feature_object st)))
     <> ["js"; "canvas"; "svg"].
Proof.
  intros st. split; [vm_compute; reflexivity|].
  split; [apply testAll_Feature_throws|].
  rewrite testAll_Feature_throws. split; [reflexivity|].
  vm_compute. discriminate.
Qed.

(** C8, as stated, fails: a detached call, whose receiver is [undefined],
    enumerates nothing and appends the marker; two such invocations leave
    two [js] tokens. *)
Lemma testAll_marker_counterexample :
  let st0 := init bare_env "" in
  let st1 := snd (Feature.testAll bare_env Feature.ThisUndefined st0) in
  let st2 := snd (Feature.testAll bare_env Feature.ThisUndefined st1) in
  fst (Feature.testAll bare_env Feature.ThisUndefined st0) = Ok VUndef
  /\ fst (Feature.testAll bare_env Feature.ThisUndefined st1) = Ok VUndef
  /\ className st2 = " js js"
  /\ count_token "js" (className st0) = 0
  /\ count_token "js" (className st2) = 2.
Proof. vm_compute. repeat split. Qed.

(** C8, amended: every invocation of [testAll] that completes appends the
    [js] marker token once more to the class attribute, whether or not it
    is already there, and removes nothing: the number of [js] tokens grows
    by one with each completed invocation, by two with two. *)
Theorem testAll_marker_each_time e1 e2 this1 this2 st st1 st2 v1 v2 :
  Feature.testAll e1 this1 st = (Ok v1, st1) ->
  Feature.testAll e2 this2 st1 = (Ok v2, st2) ->
  count_token "js" (className st1) = S (count_token "js" (className st))
  /\ count_token "js" (className st2) = S (S (count_token "js" (className st)))
  /\ exists r, className st2 = className st +:+ r.
Proof.
  intros H1 H2.
  rewrite testAll_closed, testAll_loop_exact in H1, H2.
  destruct (existsb _ (Feature.for_in_keys this1)); [discriminate|].
  destruct (existsb _ (Feature.for_in_keys this2)); [discriminate|].
  injection H1 as _ <-. injection H2 as _ <-. cbn [className set_className].
  change (Str.toLowerCase " js") with " js".
  rewrite !count_js_append. split; [reflexivity|]. split; [reflexivity|].
  exists (" js" +:+ " js"). now rewrite append_assoc.
Qed.

Lemma testAll_marker_each_time_witness :
  let st0 := init bare_env "html js" in
  let st1 := snd (Feature.testAll bare_env Feature.ThisUndefined st0) in
  let st2 := snd (Feature.testAll canvas_svg_env (Feature.ThisObject []) st1) in
  Feature.testAll bare_env Feature.ThisUndefined st0 = (Ok VUndef, st1)
  /\ Feature.testAll canvas_svg_env (Feature.ThisObject []) st1 = (Ok VUndef, st2)
  /\ count_token "js" (className st0) = 1
  /\ count_token "js" (className st2) = 3.
Proof.
  intros st0 st1 st2.
  assert (H1 : Feature.testAll bare_env Feature.ThisUndefined st0 = (Ok VUndef, st1))
    by reflexivity.
  assert (H2 : Feature.testAll canvas_svg_env (Feature.ThisObject []) st1
               = (Ok VUndef, st2)) by reflexivity.
  split; [exact H1|]. split; [exact H2|]. split; [vm_compute; reflexivity|].
  exact (proj1 (proj2 (testAll_marker_each_time bare_env canvas_svg_env
           Feature.ThisUndefined (Feature.ThisObject []) st0 st1 st2
           VUndef VUndef H1 H2))).
Defined.

(** * Exceptions *)

Section Unguarded.
Variable e : env.

Lemma historyAPI_total :
  falsy_or_object (prop e window "history") -> total (Feature.historyAPI e).
Proof.
  intros Hh st.
  unfold Feature.historyAPI, js_and, mbind, M_bind. cbn [js_get mret M_ret].
  destruct (prop e window "history") as [| |b|z|s|r] eqn:Hp; simpl in *;
    try (rewrite Hh); eauto.
Qed.

Lemma canvas_total :
  (truthy (prop e (Util.create e "dummy") "getContext") = true ->
   exists v, getContext_outcome e "2d" = Ok v) ->
  total (Feature.canvas e).
Proof.
  intros Hc st.
  unfold Feature.canvas, js_bool, js_and, mbind, M_bind.
  cbn [js_get mret M_ret].
  destruct (truthy (prop e (Util.create e "dummy") "getContext")) eqn:Hg.
  - destruct (Hc eq_refl) as [v Hv]. rewrite getContext_call, Hv. eauto.
  - eauto.
Qed.

Lemma svg_total :
  (truthy (prop e document "createElementNS") = true ->
   exists f r, prop e document "createElementNS" = VObj f
     /\ callable e f = true
     /\ invoke e f (VObj document)
          [VStr "http://www.w3.org/2000/svg"; VStr "svg"] = Ok (VObj r)) ->
  total (Feature.svg e).
Proof.
  intros Hs st.
  unfold Feature.svg, js_bool, js_and, js_call_method, mbind, M_bind.
  cbn [js_get mret M_ret truthy].
  destruct (truthy (prop e document "createElementNS")) eqn:Hg; [|eauto].
  destruct (Hs eq_refl) as (f & r & Hf & Hcall & Hinv).
  rewrite Hf. unfold js_call, lift. rewrite Hcall, Hinv. simpl. eauto.
Qed.

Lemma cors_total :
  (has e window "XMLHttpRequest" = true ->
   exists f o, prop e window "XMLHttpRequest" = VObj f
     /\ construct e f [] = Ok o) ->
  total (Feature.cors e).
Proof.
  intros Hx st.
  unfold Feature.cors, js_and, mbind, M_bind.
  cbn [js_in js_get mret M_ret truthy].
  destruct (has e window "XMLHttpRequest") eqn:Hh; [|eauto].
  destruct (Hx eq_refl) as (f & o & Hf & Hc).
  rewrite Hf. simpl. rewrite Hc. simpl. eauto.
Qed.

Lemma touch_total :
  falsy_or_callable e (prop e window "DocumentTouch") -> total (Feature.touch e).
Proof.
  intros Hd.
  unfold Feature.touch.
  apply total_js_bool, total_js_or; [apply total_js_or|].
  - apply total_js_in_obj.
  - apply total_js_and; [|apply total_js_get_obj].
    intros st. unfold js_and, mbind, M_bind. cbn [js_get mret M_ret].
    destruct (truthy (prop e window "navigator")) eqn:Hn; [|eauto].
    apply (total_js_get_truthy e _ "msPointerEnabled" Hn).
  - intros st. unfold js_and, mbind, M_bind. cbn [js_get mret M_ret].
    destruct (prop e window "DocumentTouch") as [| |b|z|s|r] eqn:Hp;
      simpl in *; try (rewrite Hd); eauto.
Qed.

(** The loop of [pfx] cannot throw when the style object can be indexed
    and every visited value can be turned into a property name. *)
Lemma scan_trace_returns f items :
  Forall (fun item => exists k, to_string_outcome e item = Ok k) items ->
  exists o, snd (scan_trace e (Some f) items) = Ok o.
Proof.
  induction 1 as [|item rest [k Hk] _ IH]; cbn; [eauto|].
  rewrite Hk. destruct (recognised f k); cbn; eauto.
Qed.

Lemma for_in_items_convertible ps :
  keys_convertible e ->
  Forall (fun item => exists k, to_string_outcome e item = Ok k)
         (Util.for_in_items e ps).
Proof.
  intros Hk. unfold Util.for_in_items. apply Forall_app. split.
  - induction ps as [|c ps IH]; cbn; constructor; [now exists c | exact IH].
  - unfold keys_convertible in Hk.
    induction Hk as [|kv l Hkv _ IH]; cbn; constructor; assumption.
Qed.

Lemma pfx_total p st :
  style st <> None -> keys_convertible e ->
  exists r, fst (Util.pfx e p st) = Ok r.
Proof.
  intros Hs Hk.
  destruct (decide (default (prop e ObjectPrototype p) (memory st !! p) = VUndef))
    as [Hu|Hd].
  - rewrite (pfx_miss e p st Hu). cbn [fst].
    destruct (style st) as [f|]; [|now destruct Hs].
    destruct (scan_trace_returns f _ (for_in_items_convertible (Util.props p) Hk))
      as [o ->].
    destruct o; cbn; eauto.
  - rewrite (pfx_hit e p st _ eq_refl Hd). eauto.
Qed.

Lemma gated_pfx_completes p st (gate : bool) :
  style st <> None -> keys_convertible e ->
  exists v st',
    (if gate then (Ok (VBool false), st)
     else match Util.pfx e p st with
          | (Ok r, st') => (Ok (VBool (strict_neq r VNull)), st')
          | (Throw x, st') => (Throw x, st')
          end) = (Ok v, st').
Proof.
  intros Hs Hk. destruct gate; [eauto|].
  destruct (pfx_total p st Hs Hk) as [r Hr].
  destruct (Util.pfx e p st) as [[r'|x] st']; [eauto | discriminate].
Qed.

End Unguarded.

(** The probes that perform no host operation outside a [try] block
    return in every environment. *)
Lemma probe_total name f :
  (name, f) ∈ Feature.catalog ->
  name ∉ ["css3Dtransform"; "cssTransform"; "cssTransition"; "historyAPI";
          "canvas"; "svg"; "cors"; "touch"] ->
  forall e, total (f e).
Proof.
  intros Hin Hn e. catalog_cases Hin;
    try (exfalso; apply Hn; name_in).
  - unfold Feature.addEventListener. auto with total_db.
  - unfold Feature.querySelectorAll. auto with total_db.
  - unfold Feature.matchMedia. auto with total_db.
  - unfold Feature.deviceMotion. auto with total_db.
  - unfold Feature.deviceOrientation. auto with total_db.
  - unfold Feature.contextMenu. auto with total_db.
  - unfold Feature.classList. auto with total_db.
  - unfold Feature.placeholder. auto with total_db.
  - unfold Feature.localStorage. auto with total_db.
  - unfold Feature.serviceWorker. auto with total_db.
  - unfold Feature.viewportUnit. cbv zeta. auto with total_db.
  - unfold Feature.remUnit. cbv zeta. auto with total_db.
  - intros st. rewrite webGL_closed. eauto.
  - unfold Feature.async. auto with total_db.
  - unfold Feature.defer. auto with total_db.
  - unfold Feature.geolocation. auto with total_db.
  - unfold Feature.srcset. auto with total_db.
  - unfold Feature.sizes. auto with total_db.
  - unfold Feature.pictureElement. auto with total_db.
Qed.




(** * Further properties of the code *)

(** ** The denylist pattern *)

Lemma step_lit w : forall s,
  Regex.step (Regex.lit w) s =
  match ci_strip w s with
  | Some r => [r]
  | None => []
  end.
Proof.
  induction w as [|c w IH]; intros s; simpl; [reflexivity|].
  destruct s as [|d s]; [reflexivity|].
  destruct (Regex.ci_eqb c d); simpl; [|reflexivity].
  rewrite IH. now rewrite app_nil_r.
Qed.

Lemma ci_eqb_digit_1 v : Regex.ci_eqb "1" v = Ascii.eqb v "1".
Proof. destruct v as [[] [] [] [] [] [] [] []]; reflexivity. Qed.

Lemma ci_eqb_digit_2 v : Regex.ci_eqb "2" v = Ascii.eqb v "2".
Proof. destruct v as [[] [] [] [] [] [] [] []]; reflexivity. Qed.

Lemma step_cat_lit w b s :
  Regex.step (Regex.Cat (Regex.lit w) b) s =
  match ci_strip w s with
  | Some r => Regex.step b r
  | None => []
  end.
Proof.
  change (Regex.step (Regex.Cat (Regex.lit w) b) s)
    with (flat_map (Regex.step b) (Regex.step (Regex.lit w) s)).
  rewrite step_lit. destruct (ci_strip w s) as [r|]; [|reflexivity].
  cbn [flat_map]. apply app_nil_r.
Qed.

Lemma step_cat_space b s :
  Regex.step (Regex.Cat Regex.Space b) s =
  match s with
  | String d rest => if Regex.is_space d then Regex.step b rest else []
  | EmptyString => []
  end.
Proof.
  destruct s as [|d rest]; [reflexivity|].
  change (Regex.step (Regex.Cat Regex.Space b) (String d rest))
    with (flat_map (Regex.step b) (if Regex.is_space d then [rest] else [])).
  destruct (Regex.is_space d); [|reflexivity].
  cbn [flat_map]. apply app_nil_r.
Qed.

Lemma ci_strip_1 s :
  ci_strip "1" s =
  match s with
  | String v r => if Ascii.eqb v "1" then Some r else None
  | EmptyString => None
  end.
Proof.
  destruct s as [|v r]; [reflexivity|].
  change (ci_strip "1" (String v r))
    with (if Regex.ci_eqb "1" v then Some r else None).
  now rewrite ci_eqb_digit_1.
Qed.

Lemma ci_strip_2 s :
  ci_strip "2" s =
  match s with
  | String v r => if Ascii.eqb v "2" then Some r else None
  | EmptyString => None
  end.
Proof.
  destruct s as [|v r]; [reflexivity|].
  change (ci_strip "2" (String v r))
    with (if Regex.ci_eqb "2" v then Some r else None).
  now rewrite ci_eqb_digit_2.
Qed.

(** What follows [Android] in the pattern. *)
Lemma step_android_tail r :
  Regex.step
    (Regex.Cat Regex.Space
       (Regex.Alt (Regex.Cat (Regex.lit "1") Regex.Dot)
                  (Regex.Cat (Regex.lit "2") Regex.Dot))) r =
  match r with
  | String w (String v (String c rest)) =>
      if Regex.is_space w && (Ascii.eqb v "1" || Ascii.eqb v "2")
         && negb (Regex.is_line_terminator c)
      then [rest] else []
  | _ => []
  end.
Proof.
  rewrite step_cat_space. destruct r as [|w r]; [reflexivity|].
  destruct (Regex.is_space w); [|now destruct r as [|v [|c rest]]].
  change (Regex.step (Regex.Alt ?a ?b) r)
    with (Regex.step a r ++ Regex.step b r).
  rewrite !step_cat_lit, ci_strip_1, ci_strip_2.
  destruct r as [|v r]; [reflexivity|].
  destruct (Ascii.eqb v "1") eqn:H1; destruct (Ascii.eqb v "2") eqn:H2.
  - apply Ascii.eqb_eq in H1, H2. congruence.
  - destruct r as [|c rest]; [reflexivity|].
    change (Regex.step Regex.Dot (String c rest))
      with (if Regex.is_line_terminator c then [] else [rest]).
    now destruct (Regex.is_line_terminator c).
  - destruct r as [|c rest]; [reflexivity|].
    change (Regex.step Regex.Dot (String c rest))
      with (if Regex.is_line_terminator c then [] else [rest]).
    now destruct (Regex.is_line_terminator c).
  - now destruct r as [|c rest].
Qed.

Lemma old_pattern_here s :
  Regex.matches_here Util.old_pattern s = denylisted_here s.
Proof.
  unfold Regex.matches_here, Util.old_pattern, denylisted_here.
  change (Regex.step (Regex.Alt ?a ?b) s)
    with (Regex.step a s ++ Regex.step b s).
  rewrite !step_cat_lit.
  destruct (ci_strip "Android" s) as [r|].
  - rewrite step_android_tail.
    destruct r as [|w [|v [|c rest]]];
      try (destruct (Regex.is_space w && (Ascii.eqb v "1" || Ascii.eqb v "2")
                     && negb (Regex.is_line_terminator c)); [reflexivity|]);
      cbn [app orb];
      (destruct (ci_strip "Silk/1" s) as [[|c' r']|]; [reflexivity| |reflexivity];
       change (Regex.step Regex.Dot (String c' r'))
         with (if Regex.is_line_terminator c' then [] else [r']);
       now destruct (Regex.is_line_terminator c')).
  - cbn [app orb].
    destruct (ci_strip "Silk/1" s) as [[|c' r']|]; [reflexivity| |reflexivity].
    change (Regex.step Regex.Dot (String c' r'))
      with (if Regex.is_line_terminator c' then [] else [r']).
    now destruct (Regex.is_line_terminator c').
Qed.

Lemma test_unfold r s :
  Regex.test r s =
  Regex.matches_here r s ||
  match s with
  | EmptyString => false
  | String _ rest => Regex.test r rest
  end.
Proof. now destruct s. Qed.

(** [test] searches every position of the subject. *)
Lemma test_search r s :
  Regex.test r s = true <->
  exists pre suf, s = pre +:+ suf /\ Regex.matches_here r suf = true.
Proof.
  split.
  - induction s as [|c s IH]; rewrite test_unfold; intros H.
    + rewrite orb_false_r in H. now exists "", "".
    + apply orb_true_iff in H as [H|H].
      * now exists "", (String c s).
      * destruct (IH H) as (pre & suf & -> & Hm).
        now exists (String c pre), suf.
  - intros (pre & suf & -> & Hm). induction pre as [|c pre IH].
    + rewrite append_nil, test_unfold, Hm. reflexivity.
    + rewrite append_cons, test_unfold, IH. apply orb_true_r.
Qed.

(** X1: the initialiser of [util.old] is an unanchored, case-insensitive
    search: the flag is set exactly when some position of the user agent
    begins with [Android], white space, [1] or [2] and one more character,
    or with [Silk/1] and one more character. *)
Theorem old_pattern_search ua :
  Regex.test Util.old_pattern ua = true <->
  exists pre suf, ua = pre +:+ suf /\ denylisted_here suf = true.
Proof.
  rewrite test_search. split; intros (pre & suf & Hs & Hm); exists pre, suf;
    (split; [exact Hs|]).
  - now rewrite <- old_pattern_here.
  - now rewrite old_pattern_here.
Qed.

(** The classes of the pattern and the case of the letters [A]-[Z]. *)
Lemma upper_fold_char d : Str.upper_char (fold_char d) = Str.upper_char d.
Proof. destruct d as [[] [] [] [] [] [] [] []]; reflexivity. Qed.

Lemma is_space_fold d : Regex.is_space (fold_char d) = Regex.is_space d.
Proof. destruct d as [[] [] [] [] [] [] [] []]; reflexivity. Qed.

Lemma is_line_terminator_fold d :
  Regex.is_line_terminator (fold_char d) = Regex.is_line_terminator d.
Proof. destruct d as [[] [] [] [] [] [] [] []]; reflexivity. Qed.

Section CaseMapping.
Variable g : ascii -> ascii.
Variable f : string -> string.
Hypothesis f_nil : f EmptyString = EmptyString.
Hypothesis f_cons : forall d r, f (String d r) = String (g d) (f r).
Hypothesis g_upper : forall d, Str.upper_char (g d) = Str.upper_char d.
Hypothesis g_space : forall d, Regex.is_space (g d) = Regex.is_space d.
Hypothesis g_line : forall d,
  Regex.is_line_terminator (g d) = Regex.is_line_terminator d.

Lemma flat_map_mapped (h : string -> list string) (l : list string) :
  (forall x, h (f x) = map f (h x)) ->
  flat_map h (map f l) = map f (flat_map h l).
Proof.
  intros Hh. induction l as [|x l IH]; [reflexivity|].
  cbn [map flat_map]. now rewrite Hh, IH, map_app.
Qed.

(** Matching commutes with a case mapping of the subject. *)
Lemma step_mapped r : forall s, Regex.step r (f s) = map f (Regex.step r s).
Proof.
  induction r as [|c| | |a IHa b IHb|a IHa b IHb]; intros s.
  - reflexivity.
  - destruct s as [|d rest]; [now rewrite f_nil|].
    rewrite f_cons.
    change (Regex.step (Regex.Lit c) (String ?x ?y))
      with (if Regex.ci_eqb c x then [y] else []).
    unfold Regex.ci_eqb. rewrite g_upper.
    now destruct (Ascii.eqb (Str.upper_char c) (Str.upper_char d)).
  - destruct s as [|d rest]; [now rewrite f_nil|].
    rewrite f_cons.
    change (Regex.step Regex.Space (String ?x ?y))
      with (if Regex.is_space x then [y] else []).
    rewrite g_space. now destruct (Regex.is_space d).
  - destruct s as [|d rest]; [now rewrite f_nil|].
    rewrite f_cons.
    change (Regex.step Regex.Dot (String ?x ?y))
      with (if Regex.is_line_terminator x then [] else [y]).
    rewrite g_line. now destruct (Regex.is_line_terminator d).
  - change (Regex.step (Regex.Cat a b) ?x)
      with (flat_map (Regex.step b) (Regex.step a x)).
    rewrite IHa. now apply flat_map_mapped.
  - change (Regex.step (Regex.Alt a b) ?x)
      with (Regex.step a x ++ Regex.step b x).
    now rewrite IHa, IHb, map_app.
Qed.

Lemma test_mapped r : forall s, Regex.test r (f s) = Regex.test r s.
Proof.
  assert (Hm : forall s, Regex.matches_here r (f s) = Regex.matches_here r s).
  { intros s. unfold Regex.matches_here. rewrite step_mapped.
    now destruct (Regex.step r s). }
  induction s as [|d rest IH].
  - rewrite f_nil. reflexivity.
  - rewrite f_cons, (test_unfold r (String (g d) (f rest))),
      (test_unfold r (String d rest)).
    rewrite <- f_cons, Hm, IH. reflexivity.
Qed.

End CaseMapping.

(** X2: the case of the letters [A]-[Z] and [a]-[z] in the user agent is
    irrelevant to [util.old]: two user agents that differ only in the case
    of these letters give the same flag. *)
Theorem old_flag_case_insensitive (e : env) (ua : string) :
  ascii_fold ua = ascii_fold (userAgent e) ->
  Util.old_init (with_userAgent ua e) = Util.old_init e.
Proof.
  intros Hfold. unfold Util.old_init. cbn [userAgent with_userAgent].
  assert (Hm : forall s, Regex.test Util.old_pattern (ascii_fold s) =
                         Regex.test Util.old_pattern s).
  { intros s. apply (test_mapped fold_char ascii_fold); auto using
      upper_fold_char, is_space_fold, is_line_terminator_fold. }
  rewrite <- (Hm ua), Hfold. apply Hm.
Qed.

Lemma old_flag_case_insensitive_witness :
  let ua := "MOZILLA/5.0 (linux; u; ANDROID 2.3.6; EN-US) applewebkit/533.1" in
  ascii_fold ua = ascii_fold (userAgent old_android_env)
  /\ Util.old_init old_android_env = true
  /\ Util.old_init (with_userAgent ua old_android_env) = Util.old_init old_android_env.
Proof.
  intros ua.
  assert (Hfold : ascii_fold ua = ascii_fold (userAgent old_android_env))
    by (vm_compute; reflexivity).
  split; [exact Hfold|]. split; [vm_compute; reflexivity|].
  exact (old_flag_case_insensitive old_android_env ua Hfold).
Defined.

Lemma ci_strip_same w s : ci_strip w (w +:+ s) = Some s.
Proof.
  induction w as [|c w IH]; [reflexivity|].
  rewrite append_cons. cbn [ci_strip]. unfold Regex.ci_eqb.
  now rewrite Ascii.eqb_refl.
Qed.

(** X3: the dot of the pattern being any character, every user agent
    that contains [Android], a space, [1] or [2] and one more character is
    on the denylist, Android 10 and later included: [css3Dtransform()] and
    [cssTransform()] then return [false] in every state of the module. *)
Theorem android_major_1_or_2_denylisted e0 cls st e pre v c suf :
  userAgent e0 = pre +:+ "Android " +:+ String v (String c suf) ->
  v = "1"%char \/ v = "2"%char ->
  Regex.is_line_terminator c = false ->
  reachable e0 cls st ->
  old st = true
  /\ Feature.css3Dtransform e st = (Ok (VBool false), st)
  /\ Feature.cssTransform e st = (Ok (VBool false), st).
Proof.
  intros Hua Hv Hc Hr.
  assert (Hold : old st = true).
  { rewrite (reachable_old _ _ _ Hr), Hua.
    apply test_search. exists pre, ("Android " +:+ String v (String c suf)).
    split; [reflexivity|]. rewrite old_pattern_here. unfold denylisted_here.
    change ("Android " +:+ String v (String c suf))
      with ("Android" +:+ String " " (String v (String c suf))).
    rewrite ci_strip_same, Hc.
    destruct Hv as [-> | ->]; reflexivity. }
  split; [exact Hold|].
  rewrite css3Dtransform_closed, cssTransform_closed, Hold. now split.
Qed.

Lemma android_major_1_or_2_denylisted_witness :
  userAgent android10_env =
    "Mozilla/5.0 (Linux; " +:+ "Android " +:+ String "1" (String "0" "; Pixel 3) AppleWebKit/537.36")
  /\ (exists sty, style (init android10_env "") = Some sty
                  /\ recognised sty "perspective" = true)
  /\ Feature.css3Dtransform android10_env (init android10_env "") =
     (Ok (VBool false), init android10_env "").
Proof.
  split; [reflexivity|]. split; [eexists; split; reflexivity|].
  exact (proj1 (proj2
    (android_major_1_or_2_denylisted android10_env "" (init android10_env "")
       android10_env "Mozilla/5.0 (Linux; " "1" "0"
       "; Pixel 3) AppleWebKit/537.36" eq_refl (or_introl eq_refl) eq_refl
       (reach_init android10_env "")))).
Defined.

(** ** The prefix resolver across a run *)

Lemma first_recognised_not_null sty cands :
  strict_neq (first_recognised sty cands) VNull = existsb (recognised sty) cands.
Proof.
  unfold first_recognised.
  induction cands as [|c cands IH]; [reflexivity|].
  cbn [List.find existsb]. destruct (recognised sty c); [reflexivity|].
  exact IH.
Qed.

(** X4: let the style object captured at initialisation be one that can
    be indexed, and let the probes run in environments of the usual kind
    (arrays inherit no enumerable property, [Object.prototype] has none of
    the three resolved names).  Then, in every state of the module, on a
    device that is not on the denylist [css3Dtransform()] is [true]
    exactly when the style object recognises [perspective] or one of its
    four prefixed forms; likewise [cssTransform()] for [transformOrigin];
    and [cssTransition()] for [transition], denylist or not. *)
Theorem prefix_probes_exact e0 cls st e sty :
  standard_run e0 cls st ->
  standard e ->
  style (init e0 cls) = Some sty ->
  fst (Feature.css3Dtransform e st) =
    Ok (VBool (negb (Util.old_init e0)
               && existsb (recognised sty) (candidates "perspective")))
  /\ fst (Feature.cssTransform e st) =
    Ok (VBool (negb (Util.old_init e0)
               && existsb (recognised sty) (candidates "transformOrigin")))
  /\ fst (Feature.cssTransition e st) =
    Ok (VBool (existsb (recognised sty) (candidates "transition"))).
Proof.
  intros Hr Hstd Hsty.
  pose proof (reachable_old _ _ _ (standard_run_reachable _ _ _ Hr)) as Hold.
  fold (Util.old_init e0) in Hold.
  assert (H1 := pfx_standard_answer e0 cls st e "perspective" sty Hr Hstd Hsty
                  ltac:(name_in)).
  assert (H2 := pfx_standard_answer e0 cls st e "transformOrigin" sty Hr Hstd Hsty
                  ltac:(name_in)).
  assert (H3 := pfx_standard_answer e0 cls st e "transition" sty Hr Hstd Hsty
                  ltac:(name_in)).
  rewrite (props_resolved "perspective" ltac:(name_in)) in H1.
  rewrite (props_resolved "transformOrigin" ltac:(name_in)) in H2.
  rewrite (props_resolved "transition" ltac:(name_in)) in H3.
  rewrite css3Dtransform_closed, cssTransform_closed, cssTransition_closed, Hold.
  rewrite <- !first_recognised_not_null.
  split; [|split].
  - destruct (Util.old_init e0); [reflexivity|].
    destruct (Util.pfx e "perspective" st) as [[r|x] s']; simpl in *; congruence.
  - destruct (Util.old_init e0); [reflexivity|].
    destruct (Util.pfx e "transformOrigin" st) as [[r|x] s']; simpl in *; congruence.
  - destruct (Util.pfx e "transition" st) as [[r|x] s']; simpl in *; congruence.
Qed.

Lemma prefix_probes_exact_witness :
  let st := snd (Feature.cssTransition bare_env (init android10_env "")) in
  standard_run android10_env "" st
  /\ standard bare_env
  /\ (exists sty, style (init android10_env "") = Some sty
                  /\ existsb (recognised sty) (candidates "perspective") = true)
  /\ Util.old_init android10_env = true
  /\ fst (Feature.css3Dtransform bare_env st) = Ok (VBool false).
Proof.
  intros st.
  assert (Hstd : standard bare_env)
    by (split; [reflexivity | intros p _; reflexivity]).
  assert (Hr : standard_run android10_env "" st).
  { apply (standard_probe android10_env "" "cssTransition" Feature.cssTransition);
      [exact Hstd | name_in | apply standard_init]. }
  split; [exact Hr|]. split; [exact Hstd|].
  split; [eexists; split; [reflexivity | vm_compute; reflexivity]|].
  split; [vm_compute; reflexivity|].
  exact (proj1 (prefix_probes_exact android10_env "" st bare_env _ Hr Hstd eq_refl)).
Defined.


(** An entry holding [undefined] counts as absent: the next resolution of
    its name writes it again.  Here the first [cssTransition()] stores
    [undefined] and a second one, in another environment, replaces it by
    [null]. *)
Lemma memo_entry_undefined_replaced :
  let st := snd (Feature.cssTransition undefined_item_env
                   (init undefined_item_env "")) in
  memory st !! "transition" = Some VUndef
  /\ memory (snd (Feature.cssTransition bare_env st)) !! "transition" = Some VNull.
Proof. vm_compute. split; reflexivity. Qed.



Lemma probe_keeps_className name f e st :
  (name, f) ∈ Feature.catalog -> className (snd (f e st)) = className st.
Proof.
  intros Hin.
  destruct (decide (name ∈ ["css3Dtransform"; "cssTransform"; "cssTransition"]))
    as [Hcss|Hother].
  - catalog_cases Hin; try (name_not_in Hcss).
    + rewrite css3Dtransform_closed. destruct (old st); [reflexivity|].
      pose proof (pfx_keeps_className e "perspective" st) as Hk.
      now destruct (Util.pfx e "perspective" st) as [[r|x] st'].
    + rewrite cssTransform_closed. destruct (old st); [reflexivity|].
      pose proof (pfx_keeps_className e "transformOrigin" st) as Hk.
      now destruct (Util.pfx e "transformOrigin" st) as [[r|x] st'].
    + rewrite cssTransition_closed.
      pose proof (pfx_keeps_className e "transition" st) as Hk.
      now destruct (Util.pfx e "transition" st) as [[r|x] st'].
  - now rewrite (probe_pure name f Hin Hother e st).
Qed.

(** X8: over a whole run of the module the class attribute of the root
    element is only ever extended, and only by [" js"]: it is the initial
    value followed by one [" js"] per completed [testAll].  No probe
    touches it, and no class is ever removed. *)
Theorem className_after_run e0 cls st :
  reachable e0 cls st ->
  exists n, className st = Nat.iter n (fun c => c +:+ " js") cls.
Proof.
  induction 1 as [|name f e st Hin Hr IH|this e st Hr IH].
  - now exists 0%nat.
  - destruct IH as [n Hn]. exists n.
    now rewrite (probe_keeps_className name f e st Hin).
  - destruct IH as [n Hn]. rewrite testAll_closed, testAll_loop_exact.
    destruct (existsb _ _).
    + now exists n.
    + exists (S n). simpl. now rewrite Hn.
Qed.

Lemma className_after_run_witness :
  let st1 := snd (Feature.testAll bare_env Feature.ThisUndefined (init bare_env "html")) in
  let st2 := snd (Feature.canvas canvas_svg_env st1) in
  let st3 := snd (Feature.testAll bare_env Feature.Feature_object st2) in
  className st3 = "html js"
  /\ exists n, className st3 = Nat.iter n (fun c => c +:+ " js") "html".
Proof.
  intros st1 st2 st3. split; [reflexivity|].
  apply (className_after_run bare_env "html").
  apply reach_testAll.
  apply (reach_probe bare_env "html" "canvas" Feature.canvas); [name_in|].
  apply reach_testAll. apply reach_init.
Defined.

(** ** Results that do not depend on the state *)

Create HintDb oblivious_db.

Section ObliviousCombinators.
Context {A B : Type}.

Lemma oblivious_mret (a : A) : oblivious (mret a : M A).
Proof. intros st st'. reflexivity. Qed.

Lemma oblivious_throw (x : exn) : oblivious (throw x : M A).
Proof. intros st st'. reflexivity. Qed.

Lemma oblivious_lift (o : outcome A) : oblivious (lift o).
Proof. intros st st'. reflexivity. Qed.

Lemma oblivious_bind (m : M A) (f : A -> M B) :
  oblivious m -> (forall a, oblivious (f a)) -> oblivious (m ≫= f).
Proof.
  intros Hm Hf st st'. unfold mbind, M_bind. specialize (Hm st st').
  destruct (m st) as [[a|x] s1], (m st') as [[a'|x'] s1']; simpl in Hm;
    try discriminate.
  - injection Hm as ->. apply Hf.
  - injection Hm as ->. reflexivity.
Qed.

Lemma oblivious_try_catch (m : M A) (h : exn -> M A) :
  oblivious m -> (forall x, oblivious (h x)) -> oblivious (try_catch m h).
Proof.
  intros Hm Hh st st'. unfold try_catch. specialize (Hm st st').
  destruct (m st) as [[a|x] s1], (m st') as [[a'|x'] s1']; simpl in Hm;
    try discriminate.
  - exact Hm.
  - injection Hm as ->. apply Hh.
Qed.

Lemma oblivious_if (c : bool) (m1 m2 : M A) :
  oblivious m1 -> oblivious m2 -> oblivious (if c then m1 else m2).
Proof. now destruct c. Qed.

End ObliviousCombinators.

#[local] Hint Resolve oblivious_mret oblivious_throw oblivious_lift oblivious_bind
  oblivious_try_catch oblivious_if : oblivious_db.

Section ObliviousOperators.
Variable e : env.

Lemma oblivious_js_and a b : oblivious a -> oblivious b -> oblivious (js_and a b).
Proof. intros. unfold js_and. auto with oblivious_db. Qed.

Lemma oblivious_js_or a b : oblivious a -> oblivious b -> oblivious (js_or a b).
Proof. intros. unfold js_or. auto with oblivious_db. Qed.

Lemma oblivious_js_bool a : oblivious a -> oblivious (js_bool a).
Proof. intros. unfold js_bool. auto with oblivious_db. Qed.

Lemma oblivious_js_in k o : oblivious (js_in e k o).
Proof. destruct o; simpl; auto with oblivious_db. Qed.

Lemma oblivious_js_get o k : oblivious (js_get e o k).
Proof. destruct o; simpl; auto with oblivious_db. Qed.

Lemma oblivious_js_call f this args : oblivious (js_call e f this args).
Proof. destruct f; simpl; auto with oblivious_db. Qed.

Lemma oblivious_js_call_method o k args : oblivious (js_call_method e o k args).
Proof.
  unfold js_call_method. apply oblivious_bind; [apply oblivious_js_get|].
  intros f. apply oblivious_js_call.
Qed.

Lemma oblivious_js_new f args : oblivious (js_new e f args).
Proof.
  destruct f; simpl; auto with oblivious_db.
  destruct (construct e r args); auto with oblivious_db.
Qed.

Lemma oblivious_js_instanceof o f : oblivious (js_instanceof e o f).
Proof. destruct f; simpl; auto with oblivious_db. Qed.

End ObliviousOperators.

#[local] Hint Resolve oblivious_js_and oblivious_js_or oblivious_js_bool
  oblivious_js_in oblivious_js_get oblivious_js_call oblivious_js_call_method
  oblivious_js_new oblivious_js_instanceof : oblivious_db.

(** The probes that do not resolve a prefix read nothing of the state. *)
Lemma probe_oblivious name f :
  (name, f) ∈ Feature.catalog ->
  name ∉ ["css3Dtransform"; "cssTransform"; "cssTransition"] ->
  forall e, oblivious (f e).
Proof.
  intros Hin Hn e. catalog_cases Hin;
    try (exfalso; apply Hn; name_in);
    unfold Feature.addEventListener, Feature.querySelectorAll, Feature.matchMedia,
      Feature.deviceMotion, Feature.deviceOrientation, Feature.contextMenu,
      Feature.classList, Feature.placeholder, Feature.localStorage,
      Feature.historyAPI, Feature.serviceWorker, Feature.viewportUnit,
      Feature.remUnit, Feature.canvas, Feature.svg, Feature.webGL, Feature.cors,
      Feature.touch, Feature.async, Feature.defer, Feature.geolocation,
      Feature.srcset, Feature.sizes, Feature.pictureElement;
    cbv zeta; auto 12 with oblivious_db.
Qed.

Lemma gated_same (gate : bool) (m1 m2 : outcome value * state) s1 s2 :
  fst m1 = fst m2 ->
  fst (if gate then (Ok (VBool false), s1)
       else match m1 with
            | (Ok r, st') => (Ok (VBool (strict_neq r VNull)), st')
            | (Throw x, st') => (Throw x, st')
            end)
  = fst (if gate then (Ok (VBool false), s2)
         else match m2 with
              | (Ok r, st') => (Ok (VBool (strict_neq r VNull)), st')
              | (Throw x, st') => (Throw x, st')
              end).
Proof.
  destruct gate; [reflexivity|].
  destruct m1 as [[r1|x1] t1], m2 as [[r2|x2] t2]; simpl; congruence.
Qed.

(** X7: memoization is invisible.  Let the style object captured at
    initialisation be one that can be indexed, and let the probes run in
    environments of the usual kind.  Then in every state of the module,
    whatever probes and [testAll] calls came before, a probe called in an
    environment returns what the same call returns on the module as
    initialisation left it. *)
Theorem memoization_transparent e0 cls st e name f :
  standard_run e0 cls st ->
  (name, f) ∈ Feature.catalog ->
  standard e ->
  style (init e0 cls) <> None ->
  fst (f e st) = fst (f e (init e0 cls)).
Proof.
  intros Hr Hin Hstd Hsty.
  destruct (style (init e0 cls)) as [sty|] eqn:Hs; [clear Hsty|now destruct Hsty].
  destruct (decide (name ∈ ["css3Dtransform"; "cssTransform"; "cssTransition"]))
    as [Hcss|Hother].
  - pose proof (reachable_old _ _ _ (standard_run_reachable _ _ _ Hr)) as Hold.
    assert (Hans : forall p, p ∈ resolved_names ->
              fst (Util.pfx e p st) = fst (Util.pfx e p (init e0 cls))).
    { intros p Hp.
      rewrite (pfx_standard_answer e0 cls st e p sty Hr Hstd Hs Hp).
      now rewrite (pfx_standard_answer e0 cls (init e0 cls) e p sty
                     (standard_init e0 cls) Hstd Hs Hp). }
    catalog_cases Hin; try (name_not_in Hcss).
    + rewrite !css3Dtransform_closed, Hold.
      change (old (init e0 cls)) with (Regex.test Util.old_pattern (userAgent e0)).
      apply gated_same, Hans. name_in.
    + rewrite !cssTransform_closed, Hold.
      change (old (init e0 cls)) with (Regex.test Util.old_pattern (userAgent e0)).
      apply gated_same, Hans. name_in.
    + rewrite !cssTransition_closed.
      apply (gated_same false _ _ st st), Hans. name_in.
  - apply (probe_oblivious name f Hin Hother e).
Qed.

Lemma memoization_transparent_witness :
  let st := snd (Feature.cssTransition android10_env
                   (snd (Feature.testAll bare_env Feature.ThisUndefined
                           (init old_android_env "")))) in
  memory st !! "transition" = Some (VStr "WebkitTransition")
  /\ fst (Feature.cssTransition bare_env st) = Ok (VBool true)
  /\ fst (Feature.cssTransition bare_env st) =
     fst (Feature.cssTransition bare_env (init old_android_env "")).
Proof.
  intros st.
  assert (Hstd : forall e, array_inherited e = [] -> prop e = prop bare_env ->
                           standard e).
  { intros e Ha Hp. split; [exact Ha | intros p _; now rewrite Hp]. }
  split; [vm_compute; reflexivity|]. split; [vm_compute; reflexivity|].
  apply (memoization_transparent old_android_env "" st bare_env "cssTransition").
  - apply (standard_probe old_android_env "" "cssTransition" Feature.cssTransition);
      [now apply Hstd | name_in |].
    apply standard_testAll. apply standard_init.
  - name_in.
  - now apply Hstd.
  - discriminate.
Defined.

(** ** What the probes return *)

Section BooleanValued.
Variable e : env.

Lemma bv_mret_bool b : boolean_valued (mret (VBool b)).
Proof. intros st v st' [= <- _]. now exists b. Qed.

Lemma bv_bind {A : Type} (m : M A) (f : A -> M value) :
  (forall a, boolean_valued (f a)) -> boolean_valued (m ≫= f).
Proof.
  intros Hf st v st'. unfold mbind, M_bind.
  destruct (m st) as [[a|x] s1]; [apply Hf | discriminate].
Qed.

Lemma bv_js_bool a : boolean_valued (js_bool a).
Proof. unfold js_bool. apply bv_bind. intros v. apply bv_mret_bool. Qed.

Lemma bv_js_in k o : boolean_valued (js_in e k o).
Proof. destruct o; simpl; try (intros st v st'; discriminate). apply bv_mret_bool. Qed.

Lemma bv_js_and a b :
  boolean_valued a -> boolean_valued b -> boolean_valued (js_and a b).
Proof.
  intros Ha Hb st v st'. unfold js_and, mbind, M_bind.
  destruct (a st) as [[va|x] s1] eqn:Hast; [|discriminate].
  destruct (truthy va); [apply Hb|].
  intros [= <- _]. exact (Ha st va s1 Hast).
Qed.

Lemma bv_try_catch m h :
  boolean_valued m -> (forall x, boolean_valued (h x)) ->
  boolean_valued (try_catch m h).
Proof.
  intros Hm Hh st v st'. unfold try_catch.
  destruct (m st) as [[a|x] s1] eqn:Hmst.
  - intros [= <- _]. exact (Hm st a s1 Hmst).
  - apply Hh.
Qed.

End BooleanValued.

(** X10: every probe except [querySelectorAll], [matchMedia] and
    [historyAPI] returns a strict boolean whenever it returns; the first two
    of the exceptions return the value found on the host object as it
    is, a function or [undefined]. *)
Theorem probes_strict_boolean e st :
  (forall name f v st',
     (name, f) ∈ Feature.catalog ->
     name ∉ ["querySelectorAll"; "matchMedia"; "historyAPI"] ->
     f e st = (Ok v, st') -> exists b, v = VBool b)
  /\ Feature.querySelectorAll e st = (Ok (prop e document "querySelectorAll"), st)
  /\ Feature.matchMedia e st = (Ok (prop e window "matchMedia"), st).
Proof.
  split; [|split; reflexivity].
  intros name f v st' Hin Hn. revert st v st'.
  change (boolean_valued (f e)).
  catalog_cases Hin; try (exfalso; apply Hn; name_in).
  - intros st v st'. rewrite css3Dtransform_closed.
    destruct (old st); [intros [= <- _]; eauto|].
    destruct (Util.pfx e "perspective" st) as [[r|x] s1]; [|discriminate].
    intros [= <- _]. eauto.
  - intros st v st'. rewrite cssTransform_closed.
    destruct (old st); [intros [= <- _]; eauto|].
    destruct (Util.pfx e "transformOrigin" st) as [[r|x] s1]; [|discriminate].
    intros [= <- _]. eauto.
  - intros st v st'. rewrite cssTransition_closed.
    destruct (Util.pfx e "transition" st) as [[r|x] s1]; [|discriminate].
    intros [= <- _]. eauto.
  - apply bv_js_bool.
  - apply bv_js_in.
  - apply bv_js_in.
  - apply bv_js_and; apply bv_js_in.
  - apply bv_js_in.
  - apply bv_js_in.
  - apply bv_try_catch; [|intros x; apply bv_mret_bool].
    apply bv_js_and; apply bv_bind; intros ls; apply bv_js_in.
  - apply bv_js_in.
  - apply bv_try_catch; [|intros x; apply bv_mret_bool].
    apply bv_bind. intros w. apply bv_js_bool.
  - apply bv_try_catch; [|intros x; apply bv_mret_bool].
    apply bv_bind. intros w. apply bv_js_bool.
  - apply bv_js_bool.
  - apply bv_js_and; apply bv_js_bool.
  - intros st v st'. rewrite webGL_closed. intros [= <- _]. eauto.
  - apply bv_js_and; [apply bv_js_in|]. apply bv_bind. intros x. apply bv_js_in.
  - apply bv_js_bool.
  - apply bv_js_in.
  - apply bv_js_in.
  - apply bv_js_in.
  - apply bv_js_in.
  - apply bv_js_in.
  - apply bv_js_in.
Qed.

Lemma probes_strict_boolean_witness :
  ("svg", Feature.svg) ∈ Feature.catalog
  /\ Feature.svg canvas_svg_env (init canvas_svg_env "") =
     (Ok (VBool true), init canvas_svg_env "")
  /\ exists b, VBool true = VBool b.
Proof.
  assert (Hin : ("svg", Feature.svg) ∈ Feature.catalog) by name_in.
  assert (Hrun : Feature.svg canvas_svg_env (init canvas_svg_env "") =
                 (Ok (VBool true), init canvas_svg_env "")) by reflexivity.
  split; [exact Hin|]. split; [exact Hrun|].
  refine (proj1 (probes_strict_boolean canvas_svg_env (init canvas_svg_env ""))
            "svg" Feature.svg (VBool true) (init canvas_svg_env "") Hin _ Hrun).
  intros H. name_not_in H.
Defined.

(** X11: [historyAPI()] on the three kinds of [window.history].  A falsy
    value (a missing property included) is returned as it is, not as
    [false]; an object gives whether it has [pushState]; a truthy
    primitive makes [in] throw a [TypeError], which escapes. *)
Theorem historyAPI_cases e st :
  (truthy (prop e window "history") = false ->
   Feature.historyAPI e st = (Ok (prop e window "history"), st))
  /\ (forall h, prop e window "history" = VObj h ->
      Feature.historyAPI e st = (Ok (VBool (has e h "pushState")), st))
  /\ (truthy (prop e window "history") = true ->
      (forall h, prop e window "history" <> VObj h) ->
      Feature.historyAPI e st = (Throw TypeError, st)).
Proof.
  unfold Feature.historyAPI, js_and, mbind, M_bind. cbn [js_get mret M_ret].
  split; [|split].
  - intros ->. reflexivity.
  - intros h ->. reflexivity.
  - intros Ht Hn. rewrite Ht.
    destruct (prop e window "history") as [| |b|z|s|r]; try reflexivity.
    now destruct (Hn r).
Qed.

Lemma historyAPI_cases_witness :
  Feature.historyAPI bare_env (init bare_env "") = (Ok VUndef, init bare_env "")
  /\ Feature.historyAPI history_env (init history_env "") =
     (Ok (VBool true), init history_env "").
Proof.
  split.
  - exact (proj1 (historyAPI_cases bare_env (init bare_env "")) eq_refl).
  - exact (proj1 (proj2 (historyAPI_cases history_env (init history_env "")))
             60%nat eq_refl).
Defined.

(** X12: [canvas()] and [webGL()] call the same [getContext] of the
    transient element, but only [webGL()] does so inside [try]: where
    [getContext] exists and throws, [webGL()] answers [false] while
    [canvas()] lets the exception escape. *)
Theorem getContext_failure_asymmetry e st x :
  truthy (prop e (Util.create e "dummy") "getContext") = true ->
  (forall kind, getContext_outcome e kind = Throw x) ->
  Feature.canvas e st = (Throw x, st)
  /\ Feature.webGL e st = (Ok (VBool false), st).
Proof.
  intros Hg Hthrow. split.
  - unfold Feature.canvas, js_bool, js_and, mbind, M_bind.
    cbn [js_get mret M_ret]. rewrite Hg, getContext_call, Hthrow. reflexivity.
  - rewrite webGL_closed. unfold webGL_result. rewrite Hthrow.
    now rewrite andb_false_r.
Qed.

Lemma getContext_failure_asymmetry_witness :
  truthy (prop hostile_env (Util.create hostile_env "dummy") "getContext") = true
  /\ Feature.canvas hostile_env (init hostile_env "") =
     (Throw (HostError 1), init hostile_env "")
  /\ Feature.webGL hostile_env (init hostile_env "") =
     (Ok (VBool false), init hostile_env "").
Proof.
  split; [reflexivity|].
  exact (getContext_failure_asymmetry hostile_env (init hostile_env "")
           (HostError 1) eq_refl (fun kind => eq_refl)).
Defined.

(** X13: [cors()] case by case.  Without an [XMLHttpRequest] property on
    [window] it is [false] and nothing is constructed.  With the property,
    the value is constructed outside any [try]: a value that is no object
    (the property set to [undefined], say) gives a [TypeError], a
    constructor that throws lets its exception through, and otherwise the
    result is whether the new object has [withCredentials]. *)
Theorem cors_cases e st :
  (has e window "XMLHttpRequest" = false ->
   Feature.cors e st = (Ok (VBool false), st))
  /\ (has e window "XMLHttpRequest" = true ->
      (forall f, prop e window "XMLHttpRequest" <> VObj f) ->
      Feature.cors e st = (Throw TypeError, st))
  /\ (forall f x, has e window "XMLHttpRequest" = true ->
      prop e window "XMLHttpRequest" = VObj f ->
      construct e f [] = Throw x ->
      Feature.cors e st = (Throw x, st))
  /\ (forall f o, has e window "XMLHttpRequest" = true ->
      prop e window "XMLHttpRequest" = VObj f ->
      construct e f [] = Ok o ->
      Feature.cors e st = (Ok (VBool (has e o "withCredentials")), st)).
Proof.
  unfold Feature.cors, js_and, mbind, M_bind. cbn [js_in js_get mret M_ret truthy].
  split; [|split; [|split]].
  - intros ->. reflexivity.
  - intros -> Hn.
    destruct (prop e window "XMLHttpRequest") as [| |b|z|s|r]; try reflexivity.
    now destruct (Hn r).
  - intros f x -> -> Hc. cbn [js_new]. rewrite Hc. reflexivity.
  - intros f o -> -> Hc. cbn [js_new]. rewrite Hc. reflexivity.
Qed.

Lemma cors_cases_witness :
  Feature.cors bare_env (init bare_env "") = (Ok (VBool false), init bare_env "")
  /\ Feature.cors undefined_xhr_env (init undefined_xhr_env "") =
     (Throw TypeError, init undefined_xhr_env "")
  /\ Feature.cors broken_xhr_env (init broken_xhr_env "") =
     (Throw (HostError 0), init broken_xhr_env "").
Proof.
  split; [|split].
  - exact (proj1 (cors_cases bare_env (init bare_env "")) eq_refl).
  - apply (proj1 (proj2 (cors_cases undefined_xhr_env (init undefined_xhr_env ""))));
      [reflexivity | intros f H; discriminate H].
  - exact (proj1 (proj2 (proj2 (cors_cases broken_xhr_env (init broken_xhr_env ""))))
             30%nat (HostError 0) eq_refl eq_refl eq_refl).
Defined.

(** X14: [localStorage()] never throws and is [true] exactly when the
    global [localStorage] can be read, is an object, and has both
    [setItem] and [removeItem]; a storage that is [null] or lacks one of
    the two methods gives [false]. *)
Theorem localStorage_exact e st :
  Feature.localStorage e st =
  (Ok (VBool match global_localStorage e with
             | Ok (VObj r) => has e r "setItem" && has e r "removeItem"
             | _ => false
             end), st).
Proof.
  unfold Feature.localStorage, try_catch, js_and, mbind, M_bind, lift.
  destruct (global_localStorage e) as [[| |b|z|s|r]|x]; try reflexivity.
  cbn [js_in mret M_ret truthy].
  now destruct (has e r "setItem").
Qed.

(** X15: [svg()] case by case.  Without [document.createElementNS] it is
    [false] and nothing is created; when the call returns an object the
    result is whether that object has a truthy [createSVGRect]; when the
    call returns [null] or [undefined], reading [createSVGRect] throws a
    [TypeError], which escapes. *)
Theorem svg_cases e st :
  (truthy (prop e document "createElementNS") = false ->
   Feature.svg e st = (Ok (VBool false), st))
  /\ (forall f n, prop e document "createElementNS" = VObj f ->
      callable e f = true ->
      invoke e f (VObj document) [VStr "http://www.w3.org/2000/svg"; VStr "svg"]
        = Ok (VObj n) ->
      Feature.svg e st = (Ok (VBool (truthy (prop e n "createSVGRect"))), st))
  /\ (forall f n, prop e document "createElementNS" = VObj f ->
      callable e f = true ->
      invoke e f (VObj document) [VStr "http://www.w3.org/2000/svg"; VStr "svg"]
        = Ok n ->
      n = VNull \/ n = VUndef ->
      Feature.svg e st = (Throw TypeError, st)).
Proof.
  unfold Feature.svg, js_bool, js_and, js_call_method, mbind, M_bind.
  cbn [js_get mret M_ret truthy].
  split; [|split].
  - intros ->. reflexivity.
  - intros f n -> Hc Hi. cbn [truthy js_call]. unfold lift. rewrite Hc, Hi.
    reflexivity.
  - intros f n -> Hc Hi Hn. cbn [truthy js_call]. unfold lift. rewrite Hc, Hi.
    destruct Hn as [-> | ->]; reflexivity.
Qed.

Lemma svg_cases_witness :
  Feature.svg bare_env (init bare_env "") = (Ok (VBool false), init bare_env "")
  /\ Feature.svg canvas_svg_env (init canvas_svg_env "") =
     (Ok (VBool true), init canvas_svg_env "")
  /\ Feature.svg null_svg_env (init null_svg_env "") =
     (Throw TypeError, init null_svg_env "").
Proof.
  split; [|split].
  - exact (proj1 (svg_cases bare_env (init bare_env "")) eq_refl).
  - exact (proj1 (proj2 (svg_cases canvas_svg_env (init canvas_svg_env "")))
             21%nat 23%nat eq_refl eq_refl eq_refl).
  - exact (proj2 (proj2 (svg_cases null_svg_env (init null_svg_env "")))
             80%nat VNull eq_refl eq_refl eq_refl (or_introl eq_refl)).
Defined.

(** X16: [touch()] is [true] as soon as [ontouchstart] is on [window]:
    the rest of the disjunction is not evaluated, so not even a
    [DocumentTouch] that is no function can make it throw.  Without
    [ontouchstart], pointer events and [MSGesture] suffice as well. *)
Theorem touch_sufficient e st :
  (has e window "ontouchstart" = true ->
   Feature.touch e st = (Ok (VBool true), st))
  /\ (forall n, prop e window "navigator" = VObj n ->
      truthy (prop e n "msPointerEnabled") = true ->
      truthy (prop e window "MSGesture") = true ->
      Feature.touch e st = (Ok (VBool true), st)).
Proof.
  unfold Feature.touch, js_bool, js_or, js_and, mbind, M_bind.
  cbn [js_in js_get mret M_ret truthy].
  split.
  - intros ->. reflexivity.
  - intros n Hn Hp Hg.
    destruct (has e window "ontouchstart"); [reflexivity|].
    cbn [truthy]. rewrite Hn. cbn [truthy js_get mret M_ret]. rewrite Hp.
    unfold mret, M_ret. rewrite Hg. unfold mret, M_ret. now rewrite Hg.
Qed.

Lemma touch_sufficient_witness :
  prop touch_env window "DocumentTouch" = VBool true
  /\ Feature.touch touch_env (init touch_env "") =
     (Ok (VBool true), init touch_env "").
Proof.
  split; [reflexivity|].
  exact (proj1 (touch_sufficient touch_env (init touch_env "")) eq_refl).
Defined.

(** ** The work memoization saves *)

Lemma pfx_within_budget e p st :
  array_inherited e = [] ->
  p ∈ resolved_names ->
  memo_ok st ->
  length (style_reads st) <= scan_budget st ->
  length (style_reads (snd (Util.pfx e p st)))
    <= scan_budget (snd (Util.pfx e p st)).
Proof.
  intros He Hp Hok Hb.
  destruct (decide (default (prop e ObjectPrototype p) (memory st !! p) = VUndef))
    as [Hu|Hd].
  - assert (Hnone : memory st !! p = None).
    { destruct (memory st !! p) as [v|] eqn:Hm; [|reflexivity].
      simpl in Hu. subst v. exfalso.
      apply (memo_value_defined (style st) p).
      symmetry. now apply Hok. }
    rewrite (pfx_miss e p st Hu).
    pose proof (proj2 (standard_scan_value e (style st) p He)) as Hlen.
    unfold scan_budget, entry_cost in *. cbn [snd memory style_reads].
    rewrite length_app, length_rev.
    unfold resolved_names in Hp.
    repeat (apply elem_of_cons in Hp as [->|Hp]);
      [ | | | now apply elem_of_nil in Hp];
      rewrite Hnone in Hb;
      rewrite lookup_insert_eq, !lookup_insert_ne by discriminate;
      change (length (Util.props _)) with 5%nat in Hlen; lia.
  - now rewrite (pfx_hit e p st _ eq_refl Hd).
Qed.

Lemma probe_within_budget name f e st :
  array_inherited e = [] ->
  (name, f) ∈ Feature.catalog ->
  memo_ok st ->
  length (style_reads st) <= scan_budget st ->
  length (style_reads (snd (f e st))) <= scan_budget (snd (f e st)).
Proof.
  intros He Hin Hok Hb.
  destruct (decide (name ∈ ["css3Dtransform"; "cssTransform"; "cssTransition"]))
    as [Hcss|Hother].
  - catalog_cases Hin; try (name_not_in Hcss).
    + rewrite css3Dtransform_closed. destruct (old st); [exact Hb|].
      pose proof (pfx_within_budget e "perspective" st He ltac:(name_in) Hok Hb)
        as Hk.
      now destruct (Util.pfx e "perspective" st) as [[r|x] st'].
    + rewrite cssTransform_closed. destruct (old st); [exact Hb|].
      pose proof (pfx_within_budget e "transformOrigin" st He ltac:(name_in) Hok Hb)
        as Hk.
      now destruct (Util.pfx e "transformOrigin" st) as [[r|x] st'].
    + rewrite cssTransition_closed.
      pose proof (pfx_within_budget e "transition" st He ltac:(name_in) Hok Hb)
        as Hk.
      now destruct (Util.pfx e "transition" st) as [[r|x] st'].
  - now rewrite (probe_pure name f Hin Hother e st).
Qed.

Lemma scan_budget_bound st : scan_budget st <= 15.
Proof.
  unfold scan_budget, entry_cost.
  destruct (memory st !! "perspective"), (memory st !! "transformOrigin"),
    (memory st !! "transition"); lia.
Qed.

(** Where arrays inherit an enumerable property the scan is longer: six
    lookups for one name. *)
Lemma style_lookups_inherited :
  length (style_reads (snd (Feature.cssTransition inherited_env
                              (init inherited_env "")))) = 6.
Proof. vm_compute. reflexivity. Qed.

(** X17: when the probes run in environments of the usual kind (arrays
    inherit no enumerable property, [Object.prototype] has none of the
    three resolved names), the style object is consulted at most fifteen
    times in the whole life of the module: however many probes and
    [testAll] calls are made, each of the three resolved names is scanned
    at most once, over at most five candidates. *)
Theorem style_lookups_bounded e0 cls st :
  standard_run e0 cls st ->
  length (style_reads st) <= 15.
Proof.
  intros Hr.
  enough (Hb : length (style_reads st) <= scan_budget st)
    by (pose proof (scan_budget_bound st); lia).
  induction Hr as [|name f e st He Hin Hr IH|this e st Hr IH].
  - simpl. lia.
  - apply (probe_within_budget name f e st (proj1 He) Hin); [|exact IH].
    exact (standard_run_memo_ok _ _ _ Hr).
  - rewrite testAll_closed, testAll_loop_exact.
    now destruct (existsb _ _).
Qed.

Lemma style_lookups_bounded_witness :
  let st := snd (Feature.cssTransition old_android_env
                   (snd (Feature.cssTransition old_android_env
                           (init old_android_env "")))) in
  style_reads st = ["WebkitTransition"; "transition"]
  /\ length (style_reads st) <= 15.
Proof.
  intros st.
  assert (Hstd : standard old_android_env)
    by (split; [reflexivity | intros p _; reflexivity]).
  split; [vm_compute; reflexivity|].
  apply (style_lookups_bounded old_android_env "").
  apply (standard_probe old_android_env "" "cssTransition" Feature.cssTransition);
    [exact Hstd | name_in |].
  apply (standard_probe old_android_env "" "cssTransition" Feature.cssTransition);
    [exact Hstd | name_in | apply standard_init].
Defined.

(** ** Resolutions at the edges *)

Lemma scan_trace_no_style_throws e item rest :
  scan_trace e None (item :: rest) = ([], Throw TypeError).
Proof. reflexivity. Qed.

Lemma for_in_items_cons e p :
  exists item rest, Util.for_in_items e (Util.props p) = item :: rest.
Proof.
  unfold Util.for_in_items.
  destruct (Util.props p) as [|c cs] eqn:Hp.
  - now destruct (split_not_nil " " _ Hp).
  - cbn. eauto.
Qed.

(** X18: a resolution that fails is memoized as [null].  Where the
    captured style object cannot be indexed, the first resolution of a
    name stores [null], throws a [TypeError] at the first lookup and
    leaves the [null] behind; every later call of [pfx] with that name,
    in whatever environment and after whatever other calls, returns
    [null] without throwing.  So [cssTransition()] throws once and
    answers [false] ever after. *)
Theorem failed_resolution_memoized e p st :
  style st = None ->
  memory st !! p = None ->
  prop e ObjectPrototype p = VUndef ->
  Util.pfx e p st = (Throw TypeError, set_memory (<[p := VNull]> (memory st)) st)
  /\ (forall e2 st2, later (snd (Util.pfx e p st)) st2 ->
        Util.pfx e2 p st2 = (Ok VNull, st2))
  /\ (p = "transition" ->
      fst (Feature.cssTransition e st) = Throw TypeError
      /\ forall e2 st2, later (snd (Feature.cssTransition e st)) st2 ->
           Feature.cssTransition e2 st2 = (Ok (VBool false), st2)).
Proof.
  intros Hs Hm Hproto.
  assert (Hrun : Util.pfx e p st =
                 (Throw TypeError, set_memory (<[p := VNull]> (memory st)) st)).
  { rewrite pfx_miss by (now rewrite Hm).
    destruct (for_in_items_cons e p) as (item & rest & ->).
    unfold set_memory. rewrite Hs, scan_trace_no_style_throws. reflexivity. }
  assert (Hlater : forall e2 st2, later (snd (Util.pfx e p st)) st2 ->
                     Util.pfx e2 p st2 = (Ok VNull, st2)).
  { intros e2 st2 Hl. apply pfx_hit; [|discriminate].
    rewrite (later_keeps_entry _ _ p VNull Hl); [reflexivity| |discriminate].
    rewrite Hrun. cbn. apply lookup_insert_eq. }
  split; [exact Hrun|]. split; [exact Hlater|].
  intros ->. rewrite cssTransition_closed, Hrun. split; [reflexivity|].
  intros e2 st2 Hl. rewrite cssTransition_closed.
  rewrite Hrun in Hlater. now rewrite (Hlater e2 st2 Hl).
Qed.

Lemma failed_resolution_memoized_witness :
  let st0 := init no_style_env "" in
  let st1 := snd (Feature.cssTransition no_style_env st0) in
  let st2 := snd (Feature.css3Dtransform old_android_env st1) in
  style st0 = None
  /\ fst (Feature.cssTransition no_style_env st0) = Throw TypeError
  /\ later st1 st2
  /\ Feature.cssTransition old_android_env st2 = (Ok (VBool false), st2).
Proof.
  intros st0 st1 st2.
  assert (Hl : later st1 st2).
  { apply (later_probe st1 "css3Dtransform" Feature.css3Dtransform);
      [name_in | apply later_now]. }
  destruct (failed_resolution_memoized no_style_env "transition" st0
              eq_refl eq_refl eq_refl) as (_ & _ & Hcss).
  destruct (Hcss eq_refl) as (Hthrow & Hafter).
  split; [reflexivity|]. split; [exact Hthrow|]. split; [exact Hl|].
  exact (Hafter old_android_env st2 Hl).
Defined.

Lemma scan_trace_hit e f (l : list string) (rest : list value) c :
  List.find (recognised f) l = Some c ->
  scan_trace e (Some f) (map VStr l ++ rest) = (scanned f l, Ok (Some (VStr c))).
Proof.
  induction l as [|d l IH]; [discriminate|].
  cbn. destruct (recognised f d).
  - now intros [= ->].
  - intros Hf. now rewrite (IH Hf).
Qed.

(** X19: the candidates come before anything arrays inherit.  Whatever
    enumerable properties arrays inherit in the environment of the call,
    if the style object recognises one of the five candidates of a
    resolved name, a first resolution of that name answers with the first
    recognised candidate and looks up candidates only, up to that one:
    inherited properties are reached only when no candidate is
    recognised. *)
Theorem candidates_before_inherited e p st sty :
  p ∈ resolved_names ->
  style st = Some sty ->
  memory st !! p = None ->
  prop e ObjectPrototype p = VUndef ->
  existsb (recognised sty) (candidates p) = true ->
  fst (Util.pfx e p st) = Ok (first_recognised sty (candidates p))
  /\ first_recognised sty (candidates p) <> VNull
  /\ style_reads (snd (Util.pfx e p st)) =
     rev (scanned sty (candidates p)) ++ style_reads st.
Proof.
  intros Hp Hs Hm Hproto Hex.
  rewrite <- first_recognised_not_null in Hex.
  unfold first_recognised in *.
  destruct (List.find (recognised sty) (candidates p)) as [c|] eqn:Hf;
    [|discriminate].
  rewrite pfx_miss by (now rewrite Hm).
  unfold Util.for_in_items. rewrite Hs, (props_resolved p Hp).
  rewrite (scan_trace_hit e sty (candidates p) _ c Hf). cbn.
  split; [reflexivity|]. split; [discriminate | reflexivity].
Qed.

Lemma candidates_before_inherited_witness :
  let st := init old_android_env "" in
  array_inherited inherited_env = [("extra", VStr "zzz")]
  /\ fst (Util.pfx inherited_env "transition" st) = Ok (VStr "WebkitTransition")
  /\ style_reads (snd (Util.pfx inherited_env "transition" st)) =
     ["WebkitTransition"; "transition"].
Proof.
  intros st.
  destruct (candidates_before_inherited inherited_env "transition" st _
              ltac:(name_in) eq_refl eq_refl eq_refl
              ltac:(vm_compute; reflexivity)) as (Hans & _ & Hreads).
  split; [reflexivity|]. split; [exact Hans | exact Hreads].
Defined.
